(** * Two-step authentication service: a shallow embedding

    This development models [AuthService] (server/auth-service.ts), the part
    of [DatabaseStorage] (server/storage.ts) it calls, and of the auth routes
    what [POST /api/auth/verify] and [POST /api/auth/login] answer once the
    service has returned, with [getClientIP] and [getUserAgent].

    Conventions of the embedding:
    - a JS [Date] and [Date.now()] are integers, milliseconds since the epoch;
      the clock does not advance during one service call: every reading of
      the call is [now] of its environment;
    - the two process-local [Map]s of the service are [gmap]s keyed by string;
    - the relational tables are lists of rows in insertion order; a drizzle
      [select ... where] that destructures [[row]] takes the first match, an
      [update ... set ... where] rewrites every matching row.  The tables do
      not reject queries, so the [catch] arms of the service are not reached;
    - the rows have the columns the service reads or writes (the schema
      itself is not among the sources);
    - what the runtime draws or decides outside the program (random values,
      [NODE_ENV], the outcome of [sendMail]) is read from the environment;
    - [bcrypt] is an interface, the theorems hold for every implementation;
    - requests are served one after the other, each to completion;
    - every call to a collaborator (storage, bcrypt, mail transport) is also
      recorded in a call trace, so that "is reached", "is issued" and "is
      performed" can be stated about an execution.

    The theorems start from an arbitrary world, so nothing depends on what
    the constructor of the service did (mail transport, admin user). *)

From stdpp Require Import gmap strings list fin_maps pretty.
From Stdlib Require Import ZArith Lia Ascii String.

Local Open Scope Z_scope.

(** ** Rows of the schema used by the service *)

Module User.
Record t := mk {
  id : Z;
  email : string;
  passwordHash : string;
  role : string;
  name : string;
  company : option string;
  isActive : bool;
  whitelistedIPs : option (list string)
}.

(** [Partial<InsertUser>]: the columns an update may set. *)
Record partial := mkPartial {
  p_email : option string;
  p_passwordHash : option string;
  p_role : option string;
  p_name : option string;
  p_company : option (option string);
  p_isActive : option bool;
  p_whitelistedIPs : option (option (list string))
}.

Definition no_updates : partial :=
  mkPartial None None None None None None None.

Definition set (upd : partial) (u : t) : t :=
  mk (id u)
     (default (email u) (p_email upd))
     (default (passwordHash u) (p_passwordHash upd))
     (default (role u) (p_role upd))
     (default (name u) (p_name upd))
     (default (company u) (p_company upd))
     (default (isActive u) (p_isActive upd))
     (default (whitelistedIPs u) (p_whitelistedIPs upd)).
End User.

Module AuthSession.
Record t := mk {
  userId : Z;
  sessionToken : string;
  ipAddress : string;
  userAgent : string;
  isActive : bool;
  expiresAt : Z
}.

(** [Partial<InsertAuthSession>] *)
Record partial := mkPartial {
  p_userId : option Z;
  p_sessionToken : option string;
  p_ipAddress : option string;
  p_userAgent : option string;
  p_isActive : option bool;
  p_expiresAt : option Z
}.

Definition set (upd : partial) (s : t) : t :=
  mk (default (userId s) (p_userId upd))
     (default (sessionToken s) (p_sessionToken upd))
     (default (ipAddress s) (p_ipAddress upd))
     (default (userAgent s) (p_userAgent upd))
     (default (isActive s) (p_isActive upd))
     (default (expiresAt s) (p_expiresAt upd)).
End AuthSession.

Module ActivityLog.
Record t := mk {
  userId : Z;
  action : string;
  status : string;
  message : string;
  ipAddress : string;
  userAgent : string
}.
End ActivityLog.

(** ** Records of the service *)

Module VerificationCode.
Record t := mk {
  code : string;
  email : string;
  ip : string;
  userAgent : string;
  expiresAt : Z;
  used : bool
}.

Definition mark_used (v : t) : t :=
  mk (code v) (email v) (ip v) (userAgent v) (expiresAt v) true.
End VerificationCode.

Module LoginAttempt.
Record t := mk { count : Z; lastAttempt : Z }.
End LoginAttempt.

Module AuthResult.
Record t := mk {
  success : bool;
  message : string;
  code : option string;
  codeId : option string;
  expiresIn : option Z;
  sessionToken : option string;
  user : option User.t
}.

(** [{ success: false, message }] *)
Definition failure (msg : string) : t :=
  mk false msg None None None None None.
End AuthResult.

Module SessionVerification.
Record t := mk {
  valid : bool;
  message : option string;
  user : option User.t;
  session : option AuthSession.t
}.

Definition invalid (msg : string) : t := mk false (Some msg) None None.
End SessionVerification.

Module AttemptCheck.
Record t := mk { allowed : bool; remainingTime : option Z }.
End AttemptCheck.

(** ** The world, the environment and the calls to collaborators *)

Record World := mkWorld {
  users : list User.t;
  authSessions : list AuthSession.t;
  activityLogs : list ActivityLog.t;
  verificationCodes : gmap string VerificationCode.t;
  loginAttempts : gmap string LoginAttempt.t;
  emailTransporter : bool
}.

Record Env := mkEnv {
  now : Z;
  development : bool;
  sendMail_ok : bool;
  random_code : string;
  randomUUID : string;
  randomBytes_hex : string;
  genSalt : string
}.

Inductive Call :=
| GetUser (id : Z)
| GetUserByEmail (email : string)
| UpdateUser (id : Z) (upd : User.partial)
| CreateAuthSession (s : AuthSession.t)
| GetAuthSession (token : string)
| UpdateAuthSession (token : string) (upd : AuthSession.partial)
| DeleteAuthSession (token : string)
| CleanupExpiredSessions
| CreateActivityLog (l : ActivityLog.t)
| BcryptCompare (password hash : string)
| BcryptHash (password : string) (rounds : Z)
| SendMail (to code : string).

Class Bcrypt := {
  bcrypt_hash : string → Z → string → string;
  bcrypt_compare : string → string → bool
}.

(** ** A state monad that also reads the environment and logs calls *)

Record Out (A : Type) := mkOut { val : A; world : World; calls : list Call }.
Arguments mkOut {A} _ _ _.
Arguments val {A} _.
Arguments world {A} _.
Arguments calls {A} _.

Definition M (A : Type) : Type := Env → World → Out A.

Definition ret {A} (a : A) : M A := λ _ w, mkOut a w [].

Definition bind {A B} (m : M A) (f : A → M B) : M B := λ e w,
  match m e w with
  | mkOut a w1 c1 =>
    match f a e w1 with
    | mkOut b w2 c2 => mkOut b w2 (c1 ++ c2)
    end
  end.

Notation "x <- m ;; k" := (bind m (λ x, k))
  (at level 100, m at next level, right associativity).
Notation "m ;; k" := (bind m (λ _, k))
  (at level 100, right associativity).

Definition read_env : M Env := λ e w, mkOut e w [].
Definition read_world : M World := λ _ w, mkOut w w [].
Definition update_world (f : World → World) : M unit := λ _ w, mkOut tt (f w) [].
Definition record (c : Call) : M unit := λ _ w, mkOut tt w [c].

Definition Date_now : M Z := e <- read_env ;; ret (now e).

Definition set_users (f : list User.t → list User.t) (w : World) : World :=
  mkWorld (f (users w)) (authSessions w) (activityLogs w)
          (verificationCodes w) (loginAttempts w) (emailTransporter w).
Definition set_authSessions (f : list AuthSession.t → list AuthSession.t)
    (w : World) : World :=
  mkWorld (users w) (f (authSessions w)) (activityLogs w)
          (verificationCodes w) (loginAttempts w) (emailTransporter w).
Definition set_activityLogs (f : list ActivityLog.t → list ActivityLog.t)
    (w : World) : World :=
  mkWorld (users w) (authSessions w) (f (activityLogs w))
          (verificationCodes w) (loginAttempts w) (emailTransporter w).
Definition set_verificationCodes
    (f : gmap string VerificationCode.t → gmap string VerificationCode.t)
    (w : World) : World :=
  mkWorld (users w) (authSessions w) (activityLogs w)
          (f (verificationCodes w)) (loginAttempts w) (emailTransporter w).
Definition set_loginAttempts
    (f : gmap string LoginAttempt.t → gmap string LoginAttempt.t)
    (w : World) : World :=
  mkWorld (users w) (authSessions w) (activityLogs w)
          (verificationCodes w) (f (loginAttempts w)) (emailTransporter w).

(** ** Strings *)

Definition lower_ascii (c : ascii) : ascii :=
  let n := nat_of_ascii c in
  if ((65 <=? n)%nat && (n <=? 90)%nat)%bool then ascii_of_nat (n + 32) else c.

(** [String.prototype.toLowerCase], on the ASCII letters. *)
Fixpoint toLowerCase (s : string) : string :=
  match s with
  | EmptyString => EmptyString
  | String c s' => String (lower_ascii c) (toLowerCase s')
  end.

(** [Array.prototype.join] *)
Fixpoint join (sep : string) (l : list string) : string :=
  match l with
  | [] => ""
  | [s] => s
  | s :: l' => s +:+ sep +:+ join sep l'
  end.

(** [Math.ceil (x / d)] for integers [x] and [d > 0]. *)
Definition ceil_div (x d : Z) : Z := - ((- x) / d).

(** ** DatabaseStorage *)

Module storage.
Definition find_user_by_id (id : Z) (l : list User.t) : option User.t :=
  List.find (λ u, bool_decide (User.id u = id)) l.

Definition find_user_by_email (email : string) (l : list User.t)
    : option User.t :=
  List.find (λ u, bool_decide (User.email u = email)) l.

Definition update_users (id : Z) (upd : User.partial) (l : list User.t)
    : list User.t :=
  (λ u, if bool_decide (User.id u = id) then User.set upd u else u) <$> l.

Definition find_session (token : string) (l : list AuthSession.t)
    : option AuthSession.t :=
  List.find (λ s, bool_decide (AuthSession.sessionToken s = token)) l.

Definition update_sessions (token : string) (upd : AuthSession.partial)
    (l : list AuthSession.t) : list AuthSession.t :=
  (λ s, if bool_decide (AuthSession.sessionToken s = token)
        then AuthSession.set upd s else s) <$> l.

Definition delete_sessions (token : string) (l : list AuthSession.t)
    : list AuthSession.t :=
  List.filter (λ s, negb (bool_decide (AuthSession.sessionToken s = token))) l.

Definition getUser (id : Z) : M (option User.t) :=
  record (GetUser id) ;;
  w <- read_world ;;
  ret (find_user_by_id id (users w)).

Definition getUserByEmail (email : string) : M (option User.t) :=
  record (GetUserByEmail email) ;;
  w <- read_world ;;
  ret (find_user_by_email email (users w)).

(** [returning()] gives the rows as updated; the caller keeps the first. *)
Definition updateUser (id : Z) (updates : User.partial)
    : M (option User.t) :=
  record (UpdateUser id updates) ;;
  w <- read_world ;;
  update_world (set_users (update_users id updates)) ;;
  ret (User.set updates <$> find_user_by_id id (users w)).

Definition createAuthSession (session : AuthSession.t) : M AuthSession.t :=
  record (CreateAuthSession session) ;;
  update_world (set_authSessions (λ l, l ++ [session])) ;;
  ret session.

Definition getAuthSession (token : string) : M (option AuthSession.t) :=
  record (GetAuthSession token) ;;
  w <- read_world ;;
  ret (find_session token (authSessions w)).

Definition updateAuthSession (token : string) (updates : AuthSession.partial)
    : M (option AuthSession.t) :=
  record (UpdateAuthSession token updates) ;;
  w <- read_world ;;
  update_world (set_authSessions (update_sessions token updates)) ;;
  ret (AuthSession.set updates <$> find_session token (authSessions w)).

Definition deleteAuthSession (token : string) : M bool :=
  record (DeleteAuthSession token) ;;
  w <- read_world ;;
  let rowCount :=
    List.length
      (List.filter (λ s, bool_decide (AuthSession.sessionToken s = token))
                   (authSessions w)) in
  update_world (set_authSessions (delete_sessions token)) ;;
  ret (bool_decide (0 < rowCount)%nat).

Definition cleanupExpiredSessions : M unit :=
  record CleanupExpiredSessions ;;
  e <- read_env ;;
  update_world
    (set_authSessions
       (List.filter (λ s, negb (bool_decide (AuthSession.expiresAt s < now e))))).

Definition createActivityLog (log : ActivityLog.t) : M ActivityLog.t :=
  record (CreateActivityLog log) ;;
  update_world (set_activityLogs (λ l, l ++ [log])) ;;
  ret log.
End storage.

(** ** bcrypt and crypto *)

Module bcrypt.
Definition compare `{Bcrypt} (password hash : string) : M bool :=
  record (BcryptCompare password hash) ;;
  ret (bcrypt_compare password hash).

Definition hash `{Bcrypt} (password : string) (rounds : Z) : M string :=
  record (BcryptHash password rounds) ;;
  e <- read_env ;;
  ret (bcrypt_hash password rounds (genSalt e)).
End bcrypt.

Module crypto.
Definition randomUUID : M string := e <- read_env ;; ret (randomUUID e).
Definition randomBytes_32_hex : M string := e <- read_env ;; ret (randomBytes_hex e).
End crypto.

(** ** AuthService *)

Section AuthService.
Context `{Bcrypt}.

(** Configuration *)
Definition maxLoginAttempts : Z := 3.
Definition lockoutDuration : Z := 15 * 60 * 1000.
Definition codeExpiry : Z := 5 * 60 * 1000.
Definition sessionExpiry : Z := 24 * 60 * 60 * 1000.

Definition generateVerificationCode : M string :=
  e <- read_env ;; ret (random_code e).

Definition generateSessionToken : M string := crypto.randomBytes_32_hex.

Definition checkLoginAttempts (ip : string) : M AttemptCheck.t :=
  w <- read_world ;;
  match loginAttempts w !! ip with
  | None => ret (AttemptCheck.mk true None)
  | Some attempts =>
    t <- Date_now ;;
    let timeSinceLastAttempt := t - LoginAttempt.lastAttempt attempts in
    if bool_decide (maxLoginAttempts ≤ LoginAttempt.count attempts) then
      if bool_decide (timeSinceLastAttempt < lockoutDuration) then
        ret (AttemptCheck.mk false
               (Some (ceil_div (lockoutDuration - timeSinceLastAttempt) 1000)))
      else
        update_world (set_loginAttempts (delete ip)) ;;
        ret (AttemptCheck.mk true None)
    else ret (AttemptCheck.mk true None)
  end.

Definition recordLoginAttempt (ip : string) (success : bool) : M unit :=
  if success then update_world (set_loginAttempts (delete ip))
  else
    w <- read_world ;;
    let attempts := default (LoginAttempt.mk 0 0) (loginAttempts w !! ip) in
    t <- Date_now ;;
    update_world (set_loginAttempts
              (insert ip (LoginAttempt.mk (LoginAttempt.count attempts + 1) t))).

Definition localhostIPs : list string :=
  ["127.0.0.1"; "localhost"; "::1"; "0.0.0.0"].

Definition isIPWhitelisted (user : User.t) (ip : string) : M bool :=
  match User.whitelistedIPs user with
  | None => ret true
  | Some ips =>
    if bool_decide (List.length ips = 0%nat) then ret true
    else
      e <- read_env ;;
      if (development e && bool_decide (ip ∈ localhostIPs))%bool then ret true
      else ret (bool_decide (ip ∈ ips))
  end.

Definition sendVerificationCode (email code : string) : M bool :=
  e <- read_env ;;
  if development e then ret true
  else
    w <- read_world ;;
    if negb (emailTransporter w) then ret false
    else
      record (SendMail email code) ;;
      ret (sendMail_ok e).

Definition logActivity (userId : Z) (action status message ip : string)
    (userAgent : option string) : M unit :=
  let log :=
    ActivityLog.mk userId action status message ip
      (match userAgent with
       | Some ua => if bool_decide (ua = "") then "Unknown" else ua
       | None => "Unknown"
       end) in
  storage.createActivityLog log ;;
  ret tt.

Definition rateLimited_message (remainingTime : option Z) : string :=
  "Too many login attempts. Try again in "
    +:+ default "undefined" (pretty <$> remainingTime) +:+ " seconds.".

(** Step 1: verify email and password, send the 2FA code *)
Definition verifyCredentials (email password ip userAgent : string)
    : M AuthResult.t :=
  attemptCheck <- checkLoginAttempts ip ;;
  if negb (AttemptCheck.allowed attemptCheck) then
    ret (AuthResult.failure
           (rateLimited_message (AttemptCheck.remainingTime attemptCheck)))
  else
    found <- storage.getUserByEmail (toLowerCase email) ;;
    match found with
    | None =>
      recordLoginAttempt ip false ;;
      ret (AuthResult.failure "Invalid credentials")
    | Some user =>
      if negb (User.isActive user) then
        recordLoginAttempt ip false ;;
        ret (AuthResult.failure "Invalid credentials")
      else
        passwordValid <- bcrypt.compare password (User.passwordHash user) ;;
        if negb passwordValid then
          recordLoginAttempt ip false ;;
          logActivity (User.id user) "login_attempt" "error"
                      "Invalid password" ip (Some userAgent) ;;
          ret (AuthResult.failure "Invalid credentials")
        else
          whitelisted <- isIPWhitelisted user ip ;;
          if negb whitelisted then
            recordLoginAttempt ip false ;;
            logActivity (User.id user) "login_attempt" "error"
                        ("Unauthorized IP: " +:+ ip) ip (Some userAgent) ;;
            ret (AuthResult.failure "Access denied: IP not authorized")
          else
            code <- generateVerificationCode ;;
            codeId <- crypto.randomUUID ;;
            t <- Date_now ;;
            let expiresAt := t + codeExpiry in
            let verificationCode :=
              VerificationCode.mk code (User.email user) ip userAgent
                                  expiresAt false in
            update_world (set_verificationCodes (insert codeId verificationCode)) ;;
            emailSent <- sendVerificationCode (User.email user) code ;;
            e <- read_env ;;
            if (negb emailSent && negb (development e))%bool then
              ret (AuthResult.failure "Failed to send verification code")
            else
              logActivity (User.id user) "login_step1" "success"
                          "Credentials verified, 2FA sent" ip (Some userAgent) ;;
              ret (AuthResult.mk true "Verification code sent to your email"
                     None (Some codeId) (Some (codeExpiry / 1000)) None None)
    end.

(** Step 2: verify the 2FA code and create the session *)
Definition verify2FACode (codeId inputCode ip : string) : M AuthResult.t :=
  w <- read_world ;;
  match verificationCodes w !! codeId with
  | None => ret (AuthResult.failure "Invalid or expired verification code")
  | Some verification =>
    t <- Date_now ;;
    if bool_decide (VerificationCode.expiresAt verification < t) then
      update_world (set_verificationCodes (delete codeId)) ;;
      ret (AuthResult.failure "Verification code expired")
    else if VerificationCode.used verification then
      ret (AuthResult.failure "Verification code already used")
    else if negb (bool_decide (VerificationCode.ip verification = ip)) then
      ret (AuthResult.failure "Security error: IP mismatch")
    else if negb (bool_decide (VerificationCode.code verification = inputCode)) then
      ret (AuthResult.failure "Invalid verification code")
    else
      update_world (set_verificationCodes
                (insert codeId (VerificationCode.mark_used verification))) ;;
      found <- storage.getUserByEmail (VerificationCode.email verification) ;;
      match found with
      | None => ret (AuthResult.failure "User not found or inactive")
      | Some user =>
        if negb (User.isActive user) then
          ret (AuthResult.failure "User not found or inactive")
        else
          sessionToken <- generateSessionToken ;;
          t' <- Date_now ;;
          let expiresAt := t' + sessionExpiry in
          let session :=
            AuthSession.mk (User.id user) sessionToken ip
              (VerificationCode.userAgent verification) true expiresAt in
          storage.createAuthSession session ;;
          recordLoginAttempt ip true ;;
          logActivity (User.id user) "login_success" "success"
                      "Successfully logged in" ip
                      (Some (VerificationCode.userAgent verification)) ;;
          update_world (set_verificationCodes (delete codeId)) ;;
          ret (AuthResult.mk true "Login successful" None None None
                             (Some sessionToken) (Some user))
      end
  end.

Definition deactivate : AuthSession.partial :=
  AuthSession.mkPartial None None None None (Some false) None.

Definition verifySession (sessionToken : string) : M SessionVerification.t :=
  if bool_decide (sessionToken = "") then
    ret (SessionVerification.invalid "No session token provided")
  else
    found <- storage.getAuthSession sessionToken ;;
    match found with
    | None => ret (SessionVerification.invalid "Invalid session token")
    | Some session =>
      if negb (AuthSession.isActive session) then
        ret (SessionVerification.invalid "Session is inactive")
      else
        t <- Date_now ;;
        if bool_decide (AuthSession.expiresAt session < t) then
          storage.updateAuthSession sessionToken deactivate ;;
          ret (SessionVerification.invalid "Session expired")
        else
          owner <- storage.getUser (AuthSession.userId session) ;;
          match owner with
          | None =>
            storage.updateAuthSession sessionToken deactivate ;;
            ret (SessionVerification.invalid "User not found or inactive")
          | Some user =>
            if negb (User.isActive user) then
              storage.updateAuthSession sessionToken deactivate ;;
              ret (SessionVerification.invalid "User not found or inactive")
            else
              ret (SessionVerification.mk true None (Some user) (Some session))
          end
    end.

Definition logout (sessionToken : string) : M (bool * string) :=
  sessionDeleted <- storage.deleteAuthSession sessionToken ;;
  ret (sessionDeleted,
       if sessionDeleted then "Logged out successfully" else "Session not found").

Definition cleanupExpiredData : M unit :=
  storage.cleanupExpiredSessions ;;
  t <- Date_now ;;
  update_world (set_verificationCodes
            (filter (λ kv, ¬ (VerificationCode.expiresAt kv.2 < t)))) ;;
  t' <- Date_now ;;
  let oneHourAgo := t' - 60 * 60 * 1000 in
  update_world (set_loginAttempts
            (filter (λ kv, ¬ (LoginAttempt.lastAttempt kv.2 < oneHourAgo)))).

Definition changePassword (userId : Z) (currentPassword newPassword : string)
    : M (bool * string) :=
  found <- storage.getUser userId ;;
  match found with
  | None => ret (false, "User not found")
  | Some user =>
    passwordValid <- bcrypt.compare currentPassword (User.passwordHash user) ;;
    if negb passwordValid then ret (false, "Current password is incorrect")
    else
      hashedNewPassword <- bcrypt.hash newPassword 12 ;;
      storage.updateUser userId
        (User.mkPartial None (Some hashedNewPassword) None None None None None) ;;
      logActivity userId "password_change" "success"
                  "Password changed successfully" "system" None ;;
      ret (true, "Password changed successfully")
  end.

Definition updateIPWhitelist (userId : Z) (ips : list string)
    : M (bool * string) :=
  storage.updateUser userId
    (User.mkPartial None None None None None None (Some (Some ips))) ;;
  logActivity userId "ip_whitelist_update" "success"
              ("Updated IP whitelist: " +:+ join ", " ips) "system" None ;;
  ret (true, "IP whitelist updated successfully").
End AuthService.

(** The configuration and the rendering of numbers stay folded in proofs. *)
Arguments maxLoginAttempts : simpl never.
Arguments lockoutDuration : simpl never.
Arguments codeExpiry : simpl never.
Arguments sessionExpiry : simpl never.
Arguments ceil_div : simpl never.
Arguments rateLimited_message : simpl never.

(** ** The response of [POST /api/auth/verify] *)

#[warnings="-register-all"]
Inductive JSON :=
| JUndefined
| JBool (b : bool)
| JNum (n : Z)
| JStr (s : string)
| JObj (fields : list (string * JSON)).

Record Cookie := mkCookie {
  cookie_name : string;
  cookie_value : option string;
  httpOnly : bool;
  secure : bool;
  sameSite : string;
  maxAge : Z
}.

Record HttpResponse := mkHttpResponse {
  status : Z;
  cookies : list Cookie;
  body : JSON
}.

Definition optional {A} (f : A → JSON) (o : option A) : JSON :=
  match o with Some a => f a | None => JUndefined end.

(** What the route answers once [authService.verify2FACode] has returned
    [result]; [production] is [NODE_ENV === 'production']. *)
Definition verify_response (production : bool) (result : AuthResult.t)
    : HttpResponse :=
  if AuthResult.success result then
    mkHttpResponse 200
      [mkCookie "sessionToken" (AuthResult.sessionToken result)
                true production "strict" (24 * 60 * 60 * 1000)]
      (JObj [("success", JBool true);
             ("message", JStr (AuthResult.message result));
             ("user", JObj
                [("id", optional JNum (User.id <$> AuthResult.user result));
                 ("email", optional JStr (User.email <$> AuthResult.user result));
                 ("name", optional JStr (User.name <$> AuthResult.user result));
                 ("role", optional JStr (User.role <$> AuthResult.user result))])])
  else
    mkHttpResponse 401 []
      (JObj [("success", JBool false);
             ("message", JStr (AuthResult.message result))]).

(** The keys of a JSON object, at any depth. *)
Fixpoint keys (j : JSON) : list string :=
  match j with
  | JObj fields =>
    (fix go (l : list (string * JSON)) : list string :=
       match l with
       | [] => []
       | (k, v) :: l' => k :: keys v ++ go l'
       end) fields
  | _ => []
  end.

(** ** The service as a machine: requests served one after the other *)

Inductive Request :=
| VerifyCredentials (email password ip userAgent : string)
| Verify2FACode (codeId inputCode ip : string)
| VerifySession (sessionToken : string)
| Logout (sessionToken : string)
| CleanupExpiredData
| ChangePassword (userId : Z) (currentPassword newPassword : string)
| UpdateIPWhitelist (userId : Z) (ips : list string).

Inductive Reply :=
| RAuth (r : AuthResult.t)
| RSession (r : SessionVerification.t)
| RStatus (r : bool * string)
| RDone.

Definition serve `{Bcrypt} (r : Request) : M Reply :=
  match r with
  | VerifyCredentials email password ip userAgent =>
    a <- verifyCredentials email password ip userAgent ;; ret (RAuth a)
  | Verify2FACode codeId inputCode ip =>
    a <- verify2FACode codeId inputCode ip ;; ret (RAuth a)
  | VerifySession sessionToken =>
    a <- verifySession sessionToken ;; ret (RSession a)
  | Logout sessionToken => a <- logout sessionToken ;; ret (RStatus a)
  | CleanupExpiredData => cleanupExpiredData ;; ret RDone
  | ChangePassword userId currentPassword newPassword =>
    a <- changePassword userId currentPassword newPassword ;; ret (RStatus a)
  | UpdateIPWhitelist userId ips =>
    a <- updateIPWhitelist userId ips ;; ret (RStatus a)
  end.

(** Serving a list of requests, each with the environment it runs in; the
    replies come back in order, with the final world. *)
Fixpoint run `{Bcrypt} (l : list (Env * Request)) (w : World)
    : list Reply * World :=
  match l with
  | [] => ([], w)
  | (e, r) :: l' =>
    let o := serve r e w in
    let rest := run l' (world o) in
    (val o :: rest.1, rest.2)
  end.

(** ** A bcrypt to run examples with

    It keeps the password in clear after a prefix and the salt: enough to
    evaluate the service on concrete inputs. *)

Definition toy_prefix (salt : string) : string := "$2b$12$" +:+ salt +:+ "$".

Definition toy_bcrypt : Bcrypt := {|
  bcrypt_hash password rounds salt := toy_prefix salt +:+ password;
  bcrypt_compare password hash :=
    existsb (λ salt, bool_decide (hash = toy_prefix salt +:+ password))
            ["s0"; "s1"]
|}.

(** ** Worlds and environments to run examples in *)

Definition alice : User.t :=
  User.mk 1 "a@b.com" "$2b$12$s0$secret123" "admin" "Alice" None true None.

Definition bob : User.t :=
  User.mk 2 "bob@b.com" "$2b$12$s0$hunter22" "user" "Bob" None false
          (Some ["10.0.0.1"]).

Definition world0 : World := mkWorld [alice; bob] [] [] ∅ ∅ false.

(** Production, no mail transport configured. *)
Definition env_at (t : Z) : Env :=
  mkEnv t false true "123456" "uuid-1" "tok-1" "s1".

(** Development mode. *)
Definition dev_at (t : Z) : Env :=
  mkEnv t true true "123456" "uuid-1" "tok-1" "s1".

Definition pending_code : VerificationCode.t :=
  VerificationCode.mk "123456" "a@b.com" "1.2.3.4" "UA" 301000 false.

(** A code is outstanding for alice. *)
Definition world_pending : World :=
  mkWorld [alice; bob] [] [] {["uuid-1" := pending_code]} ∅ false.

Definition bob_code : VerificationCode.t :=
  VerificationCode.mk "654321" "bob@b.com" "10.0.0.1" "UA" 301000 false.

(** A code is outstanding for bob, who has been deactivated since. *)
Definition world_bob : World :=
  mkWorld [alice; bob] [] [] {["uuid-2" := bob_code]} ∅ false.

Definition old_session : AuthSession.t :=
  AuthSession.mk 1 "tok-0" "1.2.3.4" "UA" true 5000.

Definition world_session : World :=
  mkWorld [alice; bob] [old_session] [] ∅ ∅ false.

Definition three_failures : LoginAttempt.t := LoginAttempt.mk 3 1000.

Definition world_locked : World :=
  mkWorld [alice; bob] [] [] ∅ {["1.2.3.4" := three_failures]} false.

Definition wrong_password (t : Z) : Env * Request :=
  (env_at t, VerifyCredentials "a@b.com" "letmein" "1.2.3.4" "UA").

(** Alice's own password, in production without a mail transport. *)
Definition right_password (t : Z) : Env * Request :=
  (env_at t, VerifyCredentials "a@b.com" "secret123" "1.2.3.4" "UA").

(** ** Notions used to state the properties *)

(** The throttle rejects a first-factor call from [ip] at time [t]. *)
Definition locked_out (w : World) (ip : string) (t : Z) : bool :=
  match loginAttempts w !! ip with
  | Some a =>
    bool_decide (maxLoginAttempts ≤ LoginAttempt.count a)
    && bool_decide (t - LoginAttempt.lastAttempt a < lockoutDuration)
  | None => false
  end.


(** The failures counted against [ip] once the throttle has let a call
    through: none without an entry or after a reset. *)
Definition failures_so_far (w : World) (ip : string) : Z :=
  match loginAttempts w !! ip with
  | Some a =>
    if bool_decide (maxLoginAttempts ≤ LoginAttempt.count a) then 0
    else LoginAttempt.count a
  | None => 0
  end.

(** A first-factor call that failed on what the caller presented: unknown or
    inactive user, wrong password, or an address that is not allow-listed. *)
Definition credential_failure (r : Reply) : bool :=
  match r with
  | RAuth a =>
    negb (AuthResult.success a)
    && (bool_decide (AuthResult.message a = "Invalid credentials")
        || bool_decide (AuthResult.message a = "Access denied: IP not authorized"))
  | _ => false
  end.

Definition rate_limited (r : AuthResult.t) : Prop :=
  ∃ remainingTime,
    r = AuthResult.failure (rateLimited_message (Some remainingTime)).

(** The rate-limit answer to a call made [remaining] milliseconds before the
    end of a lockout: the seconds it announces are the milliseconds divided
    by 1000 and rounded up. *)
Definition told_to_wait (remaining : Z) (r : AuthResult.t) : Prop :=
  ∃ seconds,
    1000 * (seconds - 1) < remaining ≤ 1000 * seconds ∧
    r = AuthResult.failure
          ("Too many login attempts. Try again in " +:+ pretty seconds
             +:+ " seconds.").

(** [er] is a first-factor call from [ip]. *)
Definition login_from (ip : string) (er : Env * Request) : Prop :=
  match er.2 with
  | VerifyCredentials _ _ ip' _ => ip' = ip
  | _ => False
  end.


(** [er] does not issue the code identifier [codeId] (again). *)
Definition no_reissue (codeId : string) (er : Env * Request) : Prop :=
  match er.2 with
  | VerifyCredentials _ _ _ _ => randomUUID er.1 ≠ codeId
  | _ => True
  end.

(** The second factor was accepted for [codeId]. *)
Definition accepted (codeId : string) (r : Request) (rep : Reply) : bool :=
  match r, rep with
  | Verify2FACode c _ _, RAuth a => bool_decide (c = codeId) && AuthResult.success a
  | _, _ => false
  end.

(** The second factor was accepted for a code presented from [ip]: a login
    from that address was completed. *)
Definition completes_login (ip : string) (r : Request) (rep : Reply) : bool :=
  match r, rep with
  | Verify2FACode _ _ ip', RAuth a => bool_decide (ip' = ip) && AuthResult.success a
  | _, _ => false
  end.

(** How many requests of a run completed a login from [ip]. *)
Fixpoint logins_completed `{Bcrypt} (ip : string) (l : list (Env * Request))
    (w : World) : nat :=
  match l with
  | [] => 0
  | (e, r) :: l' =>
    let o := serve r e w in
    ((if completes_login ip r (val o) then 1 else 0)
     + logins_completed ip l' (world o))%nat
  end.

(** How many requests of a run were accepted for [codeId]. *)
Fixpoint accepts `{Bcrypt} (codeId : string) (l : list (Env * Request))
    (w : World) : nat :=
  match l with
  | [] => 0
  | (e, r) :: l' =>
    let o := serve r e w in
    ((if accepted codeId r (val o) then 1 else 0) + accepts codeId l' (world o))%nat
  end.

(** [!user || !user.isActive] *)
Definition unavailable (found : option User.t) : bool :=
  match found with
  | None => true
  | Some user => negb (User.isActive user)
  end.

Definition with_passwordHash (h : string) (u : User.t) : User.t :=
  User.set (User.mkPartial None (Some h) None None None None None) u.

Definition with_user (u : option User.t) (r : AuthResult.t) : AuthResult.t :=
  AuthResult.mk (AuthResult.success r) (AuthResult.message r) (AuthResult.code r)
                (AuthResult.codeId r) (AuthResult.expiresIn r)
                (AuthResult.sessionToken r) u.

(** The session [verify2FACode] creates for [user]. *)
Definition issued_session (e : Env) (ip : string) (v : VerificationCode.t)
    (user : User.t) : AuthSession.t :=
  AuthSession.mk (User.id user) (randomBytes_hex e) ip
                 (VerificationCode.userAgent v) true (now e + sessionExpiry).

Definition login_success_log (ip : string) (v : VerificationCode.t)
    (user : User.t) : ActivityLog.t :=
  ActivityLog.mk (User.id user) "login_success" "success"
    "Successfully logged in" ip
    (if bool_decide (VerificationCode.userAgent v = "") then "Unknown"
     else VerificationCode.userAgent v).

(** The checks of [verify2FACode] that only look at the stored entry. *)
Definition code_checks_pass (e : Env) (inputCode ip : string)
    (v : VerificationCode.t) : bool :=
  negb (bool_decide (VerificationCode.expiresAt v < now e))
  && negb (VerificationCode.used v)
  && bool_decide (VerificationCode.ip v = ip)
  && bool_decide (VerificationCode.code v = inputCode).

(** The message of [verify2FACode] when an unexpired entry fails a check. *)
Definition rejection_message (inputCode ip : string) (v : VerificationCode.t)
    : string :=
  if VerificationCode.used v then "Verification code already used"
  else if negb (bool_decide (VerificationCode.ip v = ip))
  then "Security error: IP mismatch"
  else "Invalid verification code".

(** Every way a call of the second step can go. *)
Inductive verify2FACode_outcome (e : Env) (codeId inputCode ip : string)
    (w : World) : Prop :=
| code_missing :
    verificationCodes w !! codeId = None →
    verify2FACode codeId inputCode ip e w =
      mkOut (AuthResult.failure "Invalid or expired verification code") w [] →
    verify2FACode_outcome e codeId inputCode ip w
| code_expired v :
    verificationCodes w !! codeId = Some v →
    VerificationCode.expiresAt v < now e →
    verify2FACode codeId inputCode ip e w =
      mkOut (AuthResult.failure "Verification code expired")
            (set_verificationCodes (delete codeId) w) [] →
    verify2FACode_outcome e codeId inputCode ip w
| code_rejected v :
    verificationCodes w !! codeId = Some v →
    now e ≤ VerificationCode.expiresAt v →
    code_checks_pass e inputCode ip v = false →
    verify2FACode codeId inputCode ip e w
      = mkOut (AuthResult.failure (rejection_message inputCode ip v)) w [] →
    verify2FACode_outcome e codeId inputCode ip w
| user_unavailable v :
    verificationCodes w !! codeId = Some v →
    now e ≤ VerificationCode.expiresAt v →
    code_checks_pass e inputCode ip v = true →
    unavailable (storage.find_user_by_email (VerificationCode.email v) (users w))
      = true →
    verify2FACode codeId inputCode ip e w =
      mkOut (AuthResult.failure "User not found or inactive")
            (set_verificationCodes
               (insert codeId (VerificationCode.mark_used v)) w)
            [GetUserByEmail (VerificationCode.email v)] →
    verify2FACode_outcome e codeId inputCode ip w
| code_accepted v user :
    verificationCodes w !! codeId = Some v →
    now e ≤ VerificationCode.expiresAt v →
    code_checks_pass e inputCode ip v = true →
    storage.find_user_by_email (VerificationCode.email v) (users w) = Some user →
    User.isActive user = true →
    verify2FACode codeId inputCode ip e w =
      mkOut (AuthResult.mk true "Login successful" None None None
                           (Some (randomBytes_hex e)) (Some user))
            (set_verificationCodes (delete codeId)
               (set_activityLogs (λ l, l ++ [login_success_log ip v user])
                  (set_loginAttempts (delete ip)
                     (set_authSessions (λ l, l ++ [issued_session e ip v user])
                        (set_verificationCodes
                           (insert codeId (VerificationCode.mark_used v)) w)))))
            [GetUserByEmail (VerificationCode.email v);
             CreateAuthSession (issued_session e ip v user);
             CreateActivityLog (login_success_log ip v user)] →
    verify2FACode_outcome e codeId inputCode ip w.

(** [{ passwordHash: h }] *)
Definition new_passwordHash (h : string) : User.partial :=
  User.mkPartial None (Some h) None None None None None.

Definition password_change_log (userId : Z) : ActivityLog.t :=
  ActivityLog.mk userId "password_change" "success"
                 "Password changed successfully" "system" "Unknown".

(** ** Notions used by the further properties *)

(** [er] submits, before the expiry of [v], a guess for [codeId] that is
    wrong in its code or in its address. *)
Definition wrong_guess (codeId : string) (v : VerificationCode.t)
    (er : Env * Request) : Prop :=
  ∃ inputCode ip,
    er.2 = Verify2FACode codeId inputCode ip ∧
    now er.1 ≤ VerificationCode.expiresAt v ∧
    (inputCode ≠ VerificationCode.code v ∨ ip ≠ VerificationCode.ip v).

(** The reply is a second-factor failure on the code or on the address. *)
Definition guess_refused (r : Reply) : Prop :=
  r = RAuth (AuthResult.failure "Invalid verification code") ∨
  r = RAuth (AuthResult.failure "Security error: IP mismatch").



(** ** The login route: what it reads from the request and what it answers *)

(** The parts of an express request the auth routes read. *)
Record HttpRequest := mkHttpRequest {
  x_forwarded_for : option string;
  connection_remoteAddress : option string;
  socket_remoteAddress : option string;
  req_ip : option string;
  user_agent : option string
}.

(** [s.split(',')[0]]: what comes before the first comma of [s]. *)
Fixpoint before_comma (s : string) : string :=
  match s with
  | EmptyString => EmptyString
  | String c s' =>
    if Ascii.eqb c "," then EmptyString else String c (before_comma s')
  end.

(** [a || b] on strings that may be [undefined]: [undefined] and the empty
    string are falsy. *)
Definition or_else (a b : option string) : option string :=
  match a with
  | Some s => if bool_decide (s = "") then b else a
  | None => b
  end.

Definition getClientIP (req : HttpRequest) : string :=
  default "unknown"
    (or_else
       (or_else
          (or_else
             (or_else (before_comma <$> x_forwarded_for req)
                      (connection_remoteAddress req))
             (socket_remoteAddress req))
          (req_ip req))
       (Some "unknown")).





(** ** More worlds to run examples in *)

(** A live session of bob, who has been deactivated. *)
Definition bob_session : AuthSession.t :=
  AuthSession.mk 2 "tok-b" "10.0.0.1" "UA" true 90000000.

Definition world_bob_session : World :=
  mkWorld [alice; bob] [bob_session] [] ∅ ∅ false.

(** Bob, active again. *)
Definition bob_again : User.t :=
  User.mk 2 "bob@b.com" "$2b$12$s0$hunter22" "user" "Bob" None true
          (Some ["10.0.0.1"]).

(** An address that is locked out while a code issued to it is outstanding. *)
Definition world_locked_pending : World :=
  mkWorld [alice; bob] [] [] {["uuid-1" := pending_code]}
          {["1.2.3.4" := three_failures]} false.


(** * Properties *)

(** Unfolds the service down to the primitive operations of the monad. *)
Ltac munfold :=
  unfold verifyCredentials, verify2FACode, verifySession, logout,
    cleanupExpiredData, changePassword, updateIPWhitelist,
    checkLoginAttempts, recordLoginAttempt, isIPWhitelisted,
    sendVerificationCode, logActivity, generateVerificationCode,
    generateSessionToken, crypto.randomUUID, crypto.randomBytes_32_hex,
    bcrypt.compare, bcrypt.hash,
    storage.getUser, storage.getUserByEmail, storage.updateUser,
    storage.createAuthSession, storage.getAuthSession,
    storage.updateAuthSession, storage.deleteAuthSession,
    storage.cleanupExpiredSessions, storage.createActivityLog,
    Date_now, bind, ret, read_env, read_world, update_world, record in *.

(** Splits on a test the service still has to decide, innermost first. *)
Ltac branch_on x :=
  lazymatch x with
  | negb ?y => branch_on y
  | (?y && ?z)%bool => branch_on y
  | _ =>
    lazymatch type of x with
    | bool => destruct x eqn:?
    | option _ => destruct x eqn:?
    end
  end.

Ltac branches :=
  repeat (match goal with
          | |- context [match ?x with _ => _ end] => branch_on x
          | H : context [match ?x with _ => _ end] |- _ => branch_on x
          end; simpl in *).

(** Running a computation and wrapping its value. *)
Lemma bind_ret_run {A B} (m : M A) (f : A → B) e w :
  (a <- m ;; ret (f a)) e w =
    mkOut (f (val (m e w))) (world (m e w)) (calls (m e w) ++ []).
Proof. unfold bind, ret. by destruct (m e w). Qed.

(** ** The login throttle *)

Section Throttle.
Context `{Bcrypt}.
Implicit Types (e : Env) (w : World) (a : LoginAttempt.t).

Lemma verifyCredentials_locked e email password ip userAgent w a :
  loginAttempts w !! ip = Some a →
  maxLoginAttempts ≤ LoginAttempt.count a →
  now e - LoginAttempt.lastAttempt a < lockoutDuration →
  verifyCredentials email password ip userAgent e w =
    mkOut (AuthResult.failure
             (rateLimited_message
                (Some (ceil_div
                         (lockoutDuration - (now e - LoginAttempt.lastAttempt a))
                         1000))))
          w [].
Proof.
  intros Ha Hc Ht. munfold. rewrite Ha. simpl.
  rewrite !bool_decide_eq_true_2 by done. reflexivity.
Qed.

Lemma verifyCredentials_elapsed e email password ip userAgent w a :
  loginAttempts w !! ip = Some a →
  maxLoginAttempts ≤ LoginAttempt.count a →
  lockoutDuration ≤ now e - LoginAttempt.lastAttempt a →
  verifyCredentials email password ip userAgent e w =
  verifyCredentials email password ip userAgent e
                    (set_loginAttempts (delete ip) w).
Proof.
  intros Ha Hc Ht. munfold. rewrite Ha. simpl.
  rewrite lookup_delete_eq. simpl.
  rewrite bool_decide_eq_true_2 by done.
  rewrite bool_decide_eq_false_2 by lia. reflexivity.
Qed.

(** Without an entry for the address the throttle never answers. *)
Lemma verifyCredentials_fresh_not_limited e email password ip userAgent w :
  loginAttempts w !! ip = None →
  ¬ rate_limited (val (verifyCredentials email password ip userAgent e w)).
Proof.
  intros Ha [rt Hrt]. munfold. rewrite Ha in Hrt. simpl in Hrt.
  unfold rateLimited_message in Hrt.
  branches; discriminate.
Qed.

(** A call that the throttle lets through and that fails on its
    credentials counts one more failure, stamped with the time of the
    call. *)
Lemma credential_failure_counts e email password ip userAgent w :
  locked_out w ip (now e) = false →
  let o := verifyCredentials email password ip userAgent e w in
  credential_failure (RAuth (val o)) = true →
  loginAttempts (world o) =
    <[ip := LoginAttempt.mk (failures_so_far w ip + 1) (now e)]>
      (loginAttempts w).
Proof.
  unfold locked_out, failures_so_far. intros Hl. munfold.
  destruct (loginAttempts w !! ip) as [a|] eqn:Ha; simpl.
  - destruct (bool_decide (maxLoginAttempts ≤ LoginAttempt.count a)) eqn:Hc;
      simpl in *.
    + rewrite Hl. simpl.
      branches; try discriminate; intros _;
        rewrite ?lookup_delete_eq; simpl; by rewrite insert_delete_eq.
    + branches; try discriminate; intros _; by rewrite ?Ha.
  - branches; try discriminate; intros _; by rewrite ?Ha.
Qed.

Lemma serve_login e email password ip userAgent w :
  let o := verifyCredentials email password ip userAgent e w in
  val (serve (VerifyCredentials email password ip userAgent) e w) = RAuth (val o)
  ∧ world (serve (VerifyCredentials email password ip userAgent) e w) = world o.
Proof. simpl. by rewrite bind_ret_run. Qed.



End Throttle.

(** ** The second factor *)

Section SecondFactor.
Implicit Types (e : Env) (w : World) (v : VerificationCode.t).

Lemma verify2FACode_missing e codeId inputCode ip w :
  verificationCodes w !! codeId = None →
  verify2FACode codeId inputCode ip e w =
    mkOut (AuthResult.failure "Invalid or expired verification code") w [].
Proof. intros Hv. munfold. simpl. by rewrite Hv. Qed.

Lemma verify2FACode_expired e codeId inputCode ip w v :
  verificationCodes w !! codeId = Some v →
  VerificationCode.expiresAt v < now e →
  verify2FACode codeId inputCode ip e w =
    mkOut (AuthResult.failure "Verification code expired")
          (set_verificationCodes (delete codeId) w) [].
Proof.
  intros Hv Ht. munfold. simpl. rewrite Hv. simpl.
  by rewrite bool_decide_eq_true_2.
Qed.

Lemma verify2FACode_used e codeId inputCode ip w v :
  verificationCodes w !! codeId = Some v →
  now e ≤ VerificationCode.expiresAt v →
  VerificationCode.used v = true →
  verify2FACode codeId inputCode ip e w =
    mkOut (AuthResult.failure "Verification code already used") w [].
Proof.
  intros Hv Ht Hu. munfold. simpl. rewrite Hv. simpl.
  rewrite bool_decide_eq_false_2 by lia. by rewrite Hu.
Qed.

Lemma verify2FACode_unavailable e codeId inputCode ip w v :
  verificationCodes w !! codeId = Some v →
  code_checks_pass e inputCode ip v = true →
  unavailable (storage.find_user_by_email (VerificationCode.email v) (users w))
    = true →
  verify2FACode codeId inputCode ip e w =
    mkOut (AuthResult.failure "User not found or inactive")
          (set_verificationCodes
             (insert codeId (VerificationCode.mark_used v)) w)
          [GetUserByEmail (VerificationCode.email v)].
Proof.
  unfold code_checks_pass, unavailable. intros Hv Hc Hu. munfold. simpl.
  rewrite Hv. simpl.
  repeat (apply andb_prop in Hc as [Hc ?]).
  branches; try discriminate; reflexivity.
Qed.

Lemma verify2FACode_accepted e codeId inputCode ip w v user :
  verificationCodes w !! codeId = Some v →
  code_checks_pass e inputCode ip v = true →
  storage.find_user_by_email (VerificationCode.email v) (users w) = Some user →
  User.isActive user = true →
  verify2FACode codeId inputCode ip e w =
    mkOut (AuthResult.mk true "Login successful" None None None
                         (Some (randomBytes_hex e)) (Some user))
          (set_verificationCodes (delete codeId)
             (set_activityLogs (λ l, l ++ [login_success_log ip v user])
                (set_loginAttempts (delete ip)
                   (set_authSessions (λ l, l ++ [issued_session e ip v user])
                      (set_verificationCodes
                         (insert codeId (VerificationCode.mark_used v)) w)))))
          [GetUserByEmail (VerificationCode.email v);
           CreateAuthSession (issued_session e ip v user);
           CreateActivityLog (login_success_log ip v user)].
Proof.
  unfold code_checks_pass, login_success_log, issued_session.
  intros Hv Hc Hu Ha. munfold. simpl.
  rewrite Hv. simpl.
  repeat (apply andb_prop in Hc as [Hc ?]).
  branches; simplify_eq; try congruence; reflexivity.
Qed.

(** A call that fails a check on the entry, without expiry, touches
    nothing. *)
Lemma verify2FACode_rejected e codeId inputCode ip w v :
  verificationCodes w !! codeId = Some v →
  now e ≤ VerificationCode.expiresAt v →
  code_checks_pass e inputCode ip v = false →
  verify2FACode codeId inputCode ip e w
  = mkOut (AuthResult.failure (rejection_message inputCode ip v)) w [].
Proof.
  unfold code_checks_pass, rejection_message. intros Hv Ht Hc. munfold. simpl.
  rewrite Hv. simpl.
  rewrite bool_decide_eq_false_2 in * by lia. simpl in *.
  branches; try discriminate; done.
Qed.

Lemma verify2FACode_inv e codeId inputCode ip w :
  verify2FACode_outcome e codeId inputCode ip w.
Proof.
  destruct (verificationCodes w !! codeId) as [v|] eqn:Hv;
    [|by eapply code_missing, verify2FACode_missing].
  destruct (decide (VerificationCode.expiresAt v < now e)) as [Ht|Ht];
    [by eapply code_expired, verify2FACode_expired|].
  assert (now e ≤ VerificationCode.expiresAt v) by lia.
  destruct (code_checks_pass e inputCode ip v) eqn:Hc.
  - destruct (storage.find_user_by_email (VerificationCode.email v) (users w))
      as [user|] eqn:Hf.
    + destruct (User.isActive user) eqn:Ha.
      * by eapply code_accepted, verify2FACode_accepted.
      * eapply user_unavailable; eauto; [by rewrite Hf; simpl; rewrite Ha|].
        apply verify2FACode_unavailable; [done..|]. by rewrite Hf; simpl; rewrite Ha.
    + eapply user_unavailable; eauto; [by rewrite Hf|].
      apply verify2FACode_unavailable; [done..|]. by rewrite Hf.
  - by eapply code_rejected, verify2FACode_rejected.
Qed.
End SecondFactor.

(** ** What each request does to the stored codes *)

Section Codes.
Context `{Bcrypt}.
Implicit Types (e : Env) (w : World) (v : VerificationCode.t) (r : Request).

Lemma serve_world e r w :
  world (serve r e w) =
  match r with
  | VerifyCredentials email password ip userAgent =>
    world (verifyCredentials email password ip userAgent e w)
  | Verify2FACode codeId inputCode ip =>
    world (verify2FACode codeId inputCode ip e w)
  | VerifySession sessionToken => world (verifySession sessionToken e w)
  | Logout sessionToken => world (logout sessionToken e w)
  | CleanupExpiredData => world (cleanupExpiredData e w)
  | ChangePassword userId currentPassword newPassword =>
    world (changePassword userId currentPassword newPassword e w)
  | UpdateIPWhitelist userId ips => world (updateIPWhitelist userId ips e w)
  end.
Proof. destruct r; unfold serve; by rewrite bind_ret_run. Qed.

(** The first step stores at most one entry, unused, under the identifier
    it drew, and leaves the tables of users and sessions alone. *)
Lemma verifyCredentials_frame e email password ip userAgent w :
  let o := verifyCredentials email password ip userAgent e w in
  users (world o) = users w ∧
  authSessions (world o) = authSessions w ∧
  emailTransporter (world o) = emailTransporter w ∧
  (verificationCodes (world o) = verificationCodes w ∨
   ∃ v, VerificationCode.used v = false ∧
        VerificationCode.expiresAt v = now e + codeExpiry ∧
        verificationCodes (world o) = <[randomUUID e := v]> (verificationCodes w)).
Proof.
  munfold. simpl.
  branches; repeat split; try done; try (by left);
    right; eexists; (split; [|split; [|reflexivity]]); reflexivity.
Qed.

Lemma verifySession_codes e sessionToken w :
  verificationCodes (world (verifySession sessionToken e w)) = verificationCodes w.
Proof. munfold. simpl. by branches. Qed.

Lemma logout_codes e sessionToken w :
  verificationCodes (world (logout sessionToken e w)) = verificationCodes w.
Proof. munfold. simpl. by branches. Qed.

Lemma changePassword_codes e userId currentPassword newPassword w :
  verificationCodes (world (changePassword userId currentPassword newPassword e w))
  = verificationCodes w.
Proof. munfold. simpl. by branches. Qed.

Lemma updateIPWhitelist_codes e userId ips w :
  verificationCodes (world (updateIPWhitelist userId ips e w)) = verificationCodes w.
Proof. munfold. simpl. by branches. Qed.

Lemma cleanupExpiredData_codes e w :
  verificationCodes (world (cleanupExpiredData e w)) =
  filter (λ kv, ¬ (VerificationCode.expiresAt kv.2 < now e)) (verificationCodes w).
Proof. munfold. simpl. done. Qed.

(** The second step only touches the entry it was called with. *)
Lemma verify2FACode_codes_other e codeId inputCode ip w other :
  other ≠ codeId →
  verificationCodes (world (verify2FACode codeId inputCode ip e w)) !! other
  = verificationCodes w !! other.
Proof.
  intros Hne. munfold. simpl.
  branches; rewrite ?lookup_delete_ne, ?lookup_insert_ne by done; done.
Qed.

(** An identifier that is not stored stays so, unless it is issued. *)
Lemma absent_stays e r w codeId :
  verificationCodes w !! codeId = None →
  no_reissue codeId (e, r) →
  verificationCodes (world (serve r e w)) !! codeId = None.
Proof.
  intros Hnone Hfresh. rewrite serve_world.
  destruct r as [email password ip userAgent|c inputCode ip| | | | |].
  - destruct (verifyCredentials_frame e email password ip userAgent w)
      as (_ & _ & _ & [-> | (v & _ & _ & ->)]); [done|].
    by rewrite lookup_insert_ne.
  - destruct (decide (c = codeId)) as [->|Hne].
    + by rewrite verify2FACode_missing.
    + by rewrite verify2FACode_codes_other.
  - by rewrite verifySession_codes.
  - by rewrite logout_codes.
  - rewrite cleanupExpiredData_codes. by apply map_lookup_filter_None_2; left.
  - by rewrite changePassword_codes.
  - by rewrite updateIPWhitelist_codes.
Qed.

(** An entry marked used stays as it is until it expires, unless its
    identifier is issued again. *)
Lemma used_stays e r w codeId v :
  verificationCodes w !! codeId = Some v →
  VerificationCode.used v = true →
  now e ≤ VerificationCode.expiresAt v →
  no_reissue codeId (e, r) →
  verificationCodes (world (serve r e w)) !! codeId = Some v.
Proof.
  intros Hv Hu Ht Hfresh. rewrite serve_world.
  destruct r as [email password ip userAgent|c inputCode ip| | | | |].
  - destruct (verifyCredentials_frame e email password ip userAgent w)
      as (_ & _ & _ & [-> | (v' & _ & _ & ->)]); [done|].
    by rewrite lookup_insert_ne.
  - destruct (decide (c = codeId)) as [->|Hne].
    + by rewrite (verify2FACode_used e codeId inputCode ip w v).
    + by rewrite verify2FACode_codes_other.
  - by rewrite verifySession_codes.
  - by rewrite logout_codes.
  - rewrite cleanupExpiredData_codes. apply map_lookup_filter_Some_2; [done|].
    simpl. lia.
  - by rewrite changePassword_codes.
  - by rewrite updateIPWhitelist_codes.
Qed.

(** What can make a stored entry disappear. *)
Lemma removed_only_by e r w codeId v :
  verificationCodes w !! codeId = Some v →
  verificationCodes (world (serve r e w)) !! codeId = None →
  (r = CleanupExpiredData ∧ VerificationCode.expiresAt v < now e) ∨
  (∃ inputCode ip,
      r = Verify2FACode codeId inputCode ip ∧
      (VerificationCode.expiresAt v < now e ∨
       AuthResult.success (val (verify2FACode codeId inputCode ip e w)) = true)).
Proof.
  intros Hv. rewrite serve_world.
  destruct r as [email password ip userAgent|c inputCode ip| | | | |].
  - destruct (verifyCredentials_frame e email password ip userAgent w)
      as (_ & _ & _ & [-> | (v' & _ & _ & ->)]); [congruence|].
    intros Hnone. apply lookup_insert_None in Hnone as [? _]. congruence.
  - destruct (decide (c = codeId)) as [->|Hne].
    + intros Hnone. right. exists inputCode, ip. split; [done|].
      destruct (decide (VerificationCode.expiresAt v < now e)) as [|Ht]; [by left|].
      right. destruct (code_checks_pass e inputCode ip v) eqn:Hc.
      * destruct (unavailable (storage.find_user_by_email
                                 (VerificationCode.email v) (users w))) eqn:Hu.
        -- rewrite (verify2FACode_unavailable e codeId inputCode ip w v) in Hnone
             by done.
           simpl in Hnone. by rewrite lookup_insert_eq in Hnone.
        -- unfold unavailable in Hu.
           destruct (storage.find_user_by_email _ _) as [user|] eqn:Hf; [|done].
           apply negb_false_iff in Hu.
           by rewrite (verify2FACode_accepted e codeId inputCode ip w v user).
      * rewrite (verify2FACode_rejected e codeId inputCode ip w v) in Hnone
          by (done || lia).
        simpl in Hnone. congruence.
    + rewrite verify2FACode_codes_other by done. congruence.
  - rewrite verifySession_codes. congruence.
  - rewrite logout_codes. congruence.
  - rewrite cleanupExpiredData_codes. intros Hnone. left. split; [done|].
    apply map_lookup_filter_None in Hnone as [|Hf]; [congruence|].
    specialize (Hf v Hv). simpl in Hf. lia.
  - rewrite changePassword_codes. congruence.
  - rewrite updateIPWhitelist_codes. congruence.
Qed.
End Codes.

(** ** Single use of a code *)

Section SingleUse.
Context `{Bcrypt}.
Implicit Types (e : Env) (w : World) (v : VerificationCode.t) (r : Request).

Lemma serve_verify e codeId inputCode ip w :
  val (serve (Verify2FACode codeId inputCode ip) e w)
  = RAuth (val (verify2FACode codeId inputCode ip e w)).
Proof. unfold serve. by rewrite bind_ret_run. Qed.

(** Acceptance removes the entry. *)
Lemma accepted_removes e codeId inputCode ip w :
  AuthResult.success (val (verify2FACode codeId inputCode ip e w)) = true →
  verificationCodes (world (verify2FACode codeId inputCode ip e w)) !! codeId
  = None.
Proof.
  destruct (verify2FACode_inv e codeId inputCode ip w) as
    [? ->|? ? ? ->|? ? ? ? ->|? ? ? ? ? ->|? ? ? ? ? ? ? ->];
    simpl; try discriminate.
  intros _. apply lookup_delete_eq.
Qed.

Lemma accepted_serve e r w codeId :
  accepted codeId r (val (serve r e w)) =
  match r with
  | Verify2FACode c inputCode ip =>
    bool_decide (c = codeId)
    && AuthResult.success (val (verify2FACode c inputCode ip e w))
  | _ => false
  end.
Proof. destruct r; unfold serve; by rewrite bind_ret_run. Qed.

Lemma absent_never_accepted codeId (l : list (Env * Request)) : ∀ w,
  verificationCodes w !! codeId = None →
  Forall (no_reissue codeId) l →
  accepts codeId l w = 0%nat.
Proof.
  induction l as [|[e r] l IH]; intros w Hnone Hl; [done|].
  apply Forall_cons in Hl as [Hr Hl]. cbn [accepts].
  rewrite IH; [|by apply absent_stays|done].
  rewrite accepted_serve.
  destruct r as [|c inputCode ip| | | | |]; try done.
  case_bool_decide as Hc; [subst c|done].
  by rewrite verify2FACode_missing.
Qed.

Lemma accepted_at_most_once codeId (l : list (Env * Request)) : ∀ w,
  Forall (no_reissue codeId) l →
  (accepts codeId l w ≤ 1)%nat.
Proof.
  induction l as [|[e r] l IH]; intros w Hl; [simpl; lia|].
  apply Forall_cons in Hl as [Hr Hl]. cbn [accepts].
  destruct (accepted codeId r (val (serve r e w))) eqn:Hacc.
  - rewrite accepted_serve in Hacc.
    destruct r as [|c inputCode ip| | | | |]; try done.
    apply andb_prop in Hacc as [Hc Hs]. apply bool_decide_eq_true in Hc as ->.
    rewrite absent_never_accepted; [lia| |done].
    rewrite serve_world. by apply accepted_removes.
  - specialize (IH (world (serve r e w)) Hl). lia.
Qed.

(** Claim C1, as amended.  For a stored verification code entry:
    [verify2FACode] fails with "Verification code expired" and deletes the
    entry whenever the current time exceeds the stored expiry; a call is
    accepted only before the expiry and on an unused entry, and acceptance
    deletes the entry, so that submitting the same code again fails with
    "Invalid or expired verification code"; "Verification code already
    used" is what a second submission within the validity window gets
    after a first one that ended in "User not found or inactive"; and
    over any run of requests that does not issue the identifier again,
    the code is accepted at most once. *)
Theorem code_accepted_once_and_before_expiry e codeId inputCode ip w v :
  verificationCodes w !! codeId = Some v →
  let o := verify2FACode codeId inputCode ip e w in
  (VerificationCode.expiresAt v < now e →
     val o = AuthResult.failure "Verification code expired" ∧
     verificationCodes (world o) = delete codeId (verificationCodes w)) ∧
  (AuthResult.success (val o) = true →
     now e ≤ VerificationCode.expiresAt v ∧
     VerificationCode.used v = false ∧
     verificationCodes (world o) !! codeId = None ∧
     ∀ e' inputCode' ip',
       val (verify2FACode codeId inputCode' ip' e' (world o))
       = AuthResult.failure "Invalid or expired verification code") ∧
  (val o = AuthResult.failure "User not found or inactive" →
     ∀ e' inputCode' ip',
       now e' ≤ VerificationCode.expiresAt v →
       val (verify2FACode codeId inputCode' ip' e' (world o))
       = AuthResult.failure "Verification code already used") ∧
  (∀ l : list (Env * Request),
     Forall (no_reissue codeId) l → (accepts codeId l w ≤ 1)%nat).
Proof.
  intros Hv o. subst o.
  destruct (verify2FACode_inv e codeId inputCode ip w) as
    [Hn _|v' Hv' Ht ->|v' Hv' Ht Hc ->|v' Hv' Ht Hc Hu ->
     |v' user Hv' Ht Hc Hf Ha ->]; [congruence|..];
    assert (v' = v) as -> by congruence; simpl;
    (split_and!; [|..|intros l Hl; by apply accepted_at_most_once]);
    try (intros; (done || lia)).
  - (* a check on the entry failed *)
    unfold rejection_message. intros Hm. by branches.
  - (* the user is unavailable: the entry stays, marked used *)
    intros _ e' inputCode' ip' Ht'.
    rewrite (verify2FACode_used e' codeId inputCode' ip' _
               (VerificationCode.mark_used v)); [done| |done..].
    simpl. apply lookup_insert_eq.
  - (* accepted: the entry is gone *)
    intros _. unfold code_checks_pass in Hc.
    repeat (apply andb_prop in Hc as [Hc ?]).
    split; [done|]. split; [by destruct (VerificationCode.used v)|].
    split; [apply lookup_delete_eq|].
    intros e' inputCode' ip'. rewrite verify2FACode_missing; [done|].
    simpl. apply lookup_delete_eq.
Qed.
End SingleUse.

(** ** The lockout *)

Section Lockout.
Context `{Bcrypt}.
Implicit Types (e : Env) (w : World) (a : LoginAttempt.t) (r : Request).

(** [ceil_div x 1000] is [Math.ceil(x / 1000)]. *)
Lemma ceil_div_spec x n : ceil_div x 1000 = n ↔ 1000 * (n - 1) < x ≤ 1000 * n.
Proof. unfold ceil_div. split; intros; Z.div_mod_to_equations; lia. Qed.

(** A call from a locked address is told how long to wait, and touches
    nothing. *)
Lemma locked_told_to_wait e email password ip userAgent w a :
  loginAttempts w !! ip = Some a →
  maxLoginAttempts ≤ LoginAttempt.count a →
  now e < LoginAttempt.lastAttempt a + lockoutDuration →
  let o := verifyCredentials email password ip userAgent e w in
  told_to_wait (LoginAttempt.lastAttempt a + lockoutDuration - now e) (val o) ∧
  world o = w ∧ calls o = [].
Proof.
  intros Ha Hc Ht o. subst o.
  rewrite (verifyCredentials_locked e email password ip userAgent w a)
    by (done || lia).
  simpl. split; [|done].
  eexists. split; [|reflexivity].
  apply ceil_div_spec. f_equal. lia.
Qed.

(** A call that fails on its credentials was let through by the throttle. *)
Lemma credential_failure_not_locked e email password ip userAgent w :
  credential_failure
    (RAuth (val (verifyCredentials email password ip userAgent e w))) = true →
  locked_out w ip (now e) = false.
Proof.
  unfold locked_out.
  destruct (loginAttempts w !! ip) as [a|] eqn:Ha; [|done].
  destruct (bool_decide (maxLoginAttempts ≤ LoginAttempt.count a)) eqn:Hc;
    [|done].
  destruct (bool_decide (now e - LoginAttempt.lastAttempt a < lockoutDuration))
    eqn:Ht; [|done].
  apply bool_decide_eq_true in Hc, Ht.
  rewrite (verifyCredentials_locked e email password ip userAgent w a) by done.
  unfold rateLimited_message. simpl. discriminate.
Qed.

(** Consecutive counted failures add up, the last one stamps the entry. *)
Lemma failures_add_up ip (l : list (Env * Request)) : ∀ w,
  l ≠ [] →
  failures_so_far w ip + Z.of_nat (List.length l) ≤ maxLoginAttempts →
  Forall (login_from ip) l →
  Forall (λ rep, credential_failure rep = true) (run l w).1 →
  ∃ a, loginAttempts (run l w).2 !! ip = Some a ∧
       LoginAttempt.count a = failures_so_far w ip + Z.of_nat (List.length l) ∧
       Some (LoginAttempt.lastAttempt a) = (λ er, now er.1) <$> last l.
Proof.
  induction l as [|[e r] l IH]; intros w Hne Hlen Hfrom Hfail; [done|].
  apply Forall_cons in Hfrom as [Hr Hfrom].
  unfold login_from in Hr. simpl in Hr.
  destruct r as [email password ip' userAgent| | | | | |]; try done. subst ip'.
  rewrite length_cons in Hlen.
  destruct (serve_login e email password ip userAgent w) as [Hv Hw].
  cbn [run fst snd] in *. rewrite Hv, Hw in *.
  apply Forall_cons in Hfail as [Hf Hfail].
  pose proof (credential_failure_not_locked _ _ _ _ _ _ Hf) as Hnl.
  pose proof (credential_failure_counts e email password ip userAgent w Hnl Hf)
    as Hstep.
  set (o := verifyCredentials email password ip userAgent e w) in *.
  destruct l as [|er l'].
  - simpl. rewrite Hstep, lookup_insert_eq. eexists. split; [done|].
    simpl. split; [lia|done].
  - assert (Hc : failures_so_far (world o) ip = failures_so_far w ip + 1).
    { unfold failures_so_far at 1. rewrite Hstep, lookup_insert_eq. simpl.
      rewrite length_cons in Hlen.
      by rewrite bool_decide_eq_false_2 by lia. }
    destruct (IH (world o)) as (a & Ha & Hca & Hlast); [done|lia|done|done|].
    exists a. split; [done|]. split; [rewrite Hca, Hc, !length_cons; lia|].
    by rewrite Hlast.
Qed.

(** The first step only touches the throttle entry of its own address. *)
Lemma verifyCredentials_other_address e email password ip userAgent w other :
  other ≠ ip →
  loginAttempts (world (verifyCredentials email password ip userAgent e w))
    !! other = loginAttempts w !! other.
Proof.
  intros Hne. munfold. simpl.
  branches; simpl;
    rewrite ?lookup_insert_ne, ?lookup_delete_ne, ?lookup_insert_ne by done;
    done.
Qed.

(** While an address is locked out, no request served inside the window
    changes what is counted against it, except a completed login from
    that address. *)
Lemma lock_stands e r w ip a :
  loginAttempts w !! ip = Some a →
  maxLoginAttempts ≤ LoginAttempt.count a →
  now e < LoginAttempt.lastAttempt a + lockoutDuration →
  completes_login ip r (val (serve r e w)) = false →
  loginAttempts (world (serve r e w)) !! ip = Some a.
Proof.
  intros Ha Hc Ht Hno. rewrite serve_world.
  destruct r as [email password ip' userAgent|codeId inputCode ip'
                 |sessionToken|sessionToken| |userId cur new|userId ips].
  - destruct (decide (ip' = ip)) as [->|Hne].
    + by rewrite (verifyCredentials_locked e email password ip userAgent w a)
        by (done || lia).
    + by rewrite verifyCredentials_other_address.
  - unfold completes_login in Hno. rewrite serve_verify in Hno.
    destruct (verify2FACode_inv e codeId inputCode ip' w) as
      [Hn Ho|v Hv Hte Ho|v Hv Hte Hch Ho|v Hv Hte Hch Hu Ho
       |v user Hv Hte Hch Hf Hact Ho]; rewrite Ho in *; simpl in *; try done.
    rewrite andb_true_r in Hno. apply bool_decide_eq_false in Hno.
    by rewrite lookup_delete_ne.
  - munfold. simpl. by branches.
  - munfold. simpl. by branches.
  - munfold. simpl. apply map_lookup_filter_Some. split; [done|]. simpl.
    unfold lockoutDuration in Ht. lia.
  - munfold. simpl. by branches.
  - munfold. simpl. by branches.
Qed.

Lemma lock_stands_run ip a (l : list (Env * Request)) : ∀ w,
  loginAttempts w !! ip = Some a →
  maxLoginAttempts ≤ LoginAttempt.count a →
  Forall (λ er, now er.1 < LoginAttempt.lastAttempt a + lockoutDuration) l →
  logins_completed ip l w = 0%nat →
  loginAttempts (run l w).2 !! ip = Some a.
Proof.
  induction l as [|[e r] l IH]; intros w Ha Hc Hl Hno; [done|].
  apply Forall_cons in Hl as [Ht Hl]. simpl in Ht.
  cbn [logins_completed] in Hno. cbn [run fst snd].
  destruct (completes_login ip r (val (serve r e w))) eqn:Hcl; [done|].
  apply IH; try done. by apply lock_stands.
Qed.

(** Claim C3, as amended.  The throttle counts, per source address, the
    [verifyCredentials] calls that fail with "Invalid credentials" or
    "Access denied: IP not authorized" since the counter of the address
    was last cleared ([failures_so_far]); [maxLoginAttempts] is 3 and
    [lockoutDuration] 15 minutes.  When consecutive such calls from one
    address bring its count to [maxLoginAttempts] (from a cleared
    counter: three of them), the entry of the address holds that count
    and the time of the last failure.  From then on, whatever requests
    are served less than [lockoutDuration] after that failure, as long as
    none of them completes a login from that address, every
    [verifyCredentials] call from the address inside the window is
    answered "Too many login attempts. Try again in N seconds.", N being
    the remaining milliseconds divided by 1000 and rounded up, without
    any call to the store or to bcrypt and without any change of state;
    a call at or after the end of the window is not rejected: it runs
    exactly as on the state with the counter of the address deleted.  A
    [verify2FACode] call from the address that succeeds deletes its
    counter, whatever it held.  A [verifyCredentials] call that does not
    fail in one of the two counted ways (it succeeds, is rejected by the
    throttle, or cannot dispatch its code) adds nothing to the counter:
    it leaves the map as it was, or with the entry of the address deleted
    after an elapsed lockout. *)
Theorem lockout_after_max_failures ip w (l : list (Env * Request)) :
  failures_so_far w ip + Z.of_nat (List.length l) = maxLoginAttempts →
  Forall (login_from ip) l →
  Forall (λ rep, credential_failure rep = true) (run l w).1 →
  maxLoginAttempts = 3 ∧ lockoutDuration = 15 * 60 * 1000 ∧
  (∃ a,
    loginAttempts (run l w).2 !! ip = Some a ∧
    LoginAttempt.count a = maxLoginAttempts ∧
    Some (LoginAttempt.lastAttempt a) = (λ er, now er.1) <$> last l ∧
    ∀ further : list (Env * Request),
      Forall (λ er, now er.1 < LoginAttempt.lastAttempt a + lockoutDuration)
             further →
      logins_completed ip further (run l w).2 = 0%nat →
      ∀ e email password userAgent,
        let w' := (run further (run l w).2).2 in
        let o := verifyCredentials email password ip userAgent e w' in
        (now e < LoginAttempt.lastAttempt a + lockoutDuration →
           told_to_wait (LoginAttempt.lastAttempt a + lockoutDuration - now e)
                        (val o) ∧
           world o = w' ∧ calls o = []) ∧
        (LoginAttempt.lastAttempt a + lockoutDuration ≤ now e →
           ¬ rate_limited (val o) ∧
           o = verifyCredentials email password ip userAgent e
                 (set_loginAttempts (delete ip) w'))) ∧
  (∀ e codeId inputCode w',
     AuthResult.success (val (verify2FACode codeId inputCode ip e w')) = true →
     loginAttempts (world (verify2FACode codeId inputCode ip e w')) !! ip = None) ∧
  ∀ e email password userAgent w',
    let o := verifyCredentials email password ip userAgent e w' in
    credential_failure (RAuth (val o)) = false →
    loginAttempts (world o) = loginAttempts w' ∨
    loginAttempts (world o) = delete ip (loginAttempts w').
Proof.
  intros Hsum Hfrom Hfail.
  split; [done|]. split; [done|]. split; [|split].
  - assert (Hne : l ≠ []).
    { intros ->. simpl in Hsum. unfold failures_so_far in Hsum.
      destruct (loginAttempts w !! ip) as [a|]; [|done].
      case_bool_decide; [done|lia]. }
    destruct (failures_add_up ip l w) as (a & Ha & Hc & Hlast);
      [done | lia | done | done |].
    exists a. split; [done|]. split; [lia|]. split; [done|].
    intros further Hfur Hno e email password userAgent w' o.
    assert (Ha' : loginAttempts w' !! ip = Some a)
      by (apply lock_stands_run; [done | lia | done | done]).
    subst o. split; intros Ht.
    + apply (locked_told_to_wait e email password ip userAgent w' a);
        [done | lia | done].
    + rewrite (verifyCredentials_elapsed e email password ip userAgent w' a)
        by (done || lia).
      split; [|done].
      apply verifyCredentials_fresh_not_limited. simpl. apply lookup_delete_eq.
  - intros e codeId inputCode w'.
    destruct (verify2FACode_inv e codeId inputCode ip w') as
      [Hn ->|v Hv Hte ->|v Hv Hte Hch ->|v Hv Hte Hch Hu ->
       |v user Hv Hte Hch Hf Hact ->]; simpl; try discriminate.
    intros _. apply lookup_delete_eq.
  - intros e email password userAgent w'. munfold. simpl.
    branches; try discriminate; intros _; auto.
Qed.
End Lockout.

(** ** A code burnt by an unavailable user *)

Section Burnt.
Context `{Bcrypt}.
Implicit Types (e : Env) (w : World) (v : VerificationCode.t) (r : Request).

Lemma used_stays_run codeId v (l : list (Env * Request)) : ∀ w,
  verificationCodes w !! codeId = Some v →
  VerificationCode.used v = true →
  Forall (λ er, now er.1 ≤ VerificationCode.expiresAt v ∧ no_reissue codeId er) l →
  verificationCodes (run l w).2 !! codeId = Some v.
Proof.
  induction l as [|[e r] l IH]; intros w Hv Hu Hl; [done|].
  apply Forall_cons in Hl as [[Ht Hr] Hl]. cbn [run snd].
  apply IH; [|done..]. by apply used_stays.
Qed.

(** Claim C8.  When [verify2FACode] has marked an entry used and then finds
    the owning user absent or inactive, it fails with "User not found or
    inactive" without issuing a session, and the entry stays in the cache
    with its used flag set: after any further requests served before the
    expiry (none of which issues the same identifier again), every
    [verify2FACode] call with that identifier before the expiry fails with
    "Verification code already used". *)
Theorem unavailable_user_burns_the_code e codeId inputCode ip w v :
  verificationCodes w !! codeId = Some v →
  code_checks_pass e inputCode ip v = true →
  unavailable (storage.find_user_by_email (VerificationCode.email v) (users w))
    = true →
  let o := verify2FACode codeId inputCode ip e w in
  val o = AuthResult.failure "User not found or inactive" ∧
  authSessions (world o) = authSessions w ∧
  (∀ s, CreateAuthSession s ∉ calls o) ∧
  verificationCodes (world o)
    = <[codeId := VerificationCode.mark_used v]> (verificationCodes w) ∧
  ∀ later : list (Env * Request),
    Forall (λ er, now er.1 ≤ VerificationCode.expiresAt v
                  ∧ no_reissue codeId er) later →
    verificationCodes (run later (world o)).2 !! codeId
      = Some (VerificationCode.mark_used v) ∧
    ∀ e' inputCode' ip',
      now e' ≤ VerificationCode.expiresAt v →
      verify2FACode codeId inputCode' ip' e' (run later (world o)).2
      = mkOut (AuthResult.failure "Verification code already used")
              (run later (world o)).2 [].
Proof.
  intros Hv Hc Hu o. subst o.
  rewrite (verify2FACode_unavailable e codeId inputCode ip w v) by done.
  simpl. split_and!; try done.
  - intros s Hin. apply list_elem_of_singleton in Hin. discriminate.
  - intros later Hlater.
    assert (Hstays : verificationCodes
              (run later (set_verificationCodes
                            <[codeId:=VerificationCode.mark_used v]> w)).2
              !! codeId = Some (VerificationCode.mark_used v)).
    { apply used_stays_run; [|done..]. simpl. apply lookup_insert_eq. }
    split; [done|]. intros e' inputCode' ip' Ht'.
    by apply (verify2FACode_used _ _ _ _ _ (VerificationCode.mark_used v)).
Qed.
End Burnt.

(** ** Issuing the session *)

Section Issue.
Implicit Types (e : Env) (w : World) (v : VerificationCode.t).

(** Claim C4.  In every execution of [verify2FACode], a call to the
    session store's create operation occurs only after the user was
    fetched again, exists and is active, and the session is that user's;
    the table of sessions changes in no other case.  When the checks on
    the code pass and the user is absent or inactive, the call fails with
    "User not found or inactive", issues no token and creates no
    session. *)
Theorem no_session_for_unavailable_user e codeId inputCode ip w :
  let o := verify2FACode codeId inputCode ip e w in
  (∀ s, CreateAuthSession s ∈ calls o →
     ∃ v user,
       verificationCodes w !! codeId = Some v ∧
       code_checks_pass e inputCode ip v = true ∧
       storage.find_user_by_email (VerificationCode.email v) (users w)
         = Some user ∧
       User.isActive user = true ∧
       AuthSession.userId s = User.id user ∧
       ∃ after, calls o = GetUserByEmail (VerificationCode.email v)
                          :: CreateAuthSession s :: after) ∧
  (authSessions (world o) = authSessions w ∨
   ∃ s, CreateAuthSession s ∈ calls o ∧
        authSessions (world o) = authSessions w ++ [s]) ∧
  (∀ v, verificationCodes w !! codeId = Some v →
        code_checks_pass e inputCode ip v = true →
        unavailable (storage.find_user_by_email
                       (VerificationCode.email v) (users w)) = true →
        val o = AuthResult.failure "User not found or inactive" ∧
        AuthResult.sessionToken (val o) = None ∧
        authSessions (world o) = authSessions w ∧
        ∀ s, CreateAuthSession s ∉ calls o).
Proof.
  intros o. subst o.
  destruct (verify2FACode_inv e codeId inputCode ip w) as
    [Hn ->|v Hv Ht ->|v Hv Ht Hc ->|v Hv Ht Hc Hu ->
     |v user Hv Ht Hc Hf Ha ->]; simpl.
  - split_and!; [by intros s Hin%elem_of_nil | by left | congruence].
  - split_and!; [by intros s Hin%elem_of_nil | by left |].
    intros v' Hv' Hc. assert (v' = v) as -> by congruence.
    unfold code_checks_pass in Hc. rewrite bool_decide_eq_true_2 in Hc by done.
    discriminate.
  - split_and!; [by intros s Hin%elem_of_nil | by left |].
    intros v' Hv' Hc'. congruence.
  - split_and!; [|by left|].
    + intros s Hin%list_elem_of_singleton. discriminate.
    + intros v' Hv' _ _. split_and!; try done.
      intros s Hin%list_elem_of_singleton. discriminate.
  - split_and!.
    + intros s Hin. exists v, user.
      assert (s = issued_session e ip v user) as ->.
      { repeat (apply elem_of_cons in Hin as [Hin|Hin]; [congruence|]).
        by apply elem_of_nil in Hin. }
      split_and!; try done. by eexists.
    + right. eexists. split; [|done]. set_solver.
    + intros v' Hv' _ Hu. assert (v' = v) as -> by congruence.
      rewrite Hf in Hu. simpl in Hu. rewrite Ha in Hu. discriminate.
Qed.

(** Claim C2, as amended.  On success [verify2FACode] has deleted the
    entry, has written the "login_success" audit entry and returns the
    session token together with the user row as stored, password hash
    included; it is the route that answers with the public profile only:
    the body of its response carries the keys id, email, name and role of
    the user and is the same whatever the password hash, the token
    travelling in the cookie. *)
Theorem success_returns_the_stored_user e codeId inputCode ip w :
  let o := verify2FACode codeId inputCode ip e w in
  AuthResult.success (val o) = true →
  ∃ v user,
    verificationCodes w !! codeId = Some v ∧
    storage.find_user_by_email (VerificationCode.email v) (users w)
      = Some user ∧
    verificationCodes (world o) = delete codeId (verificationCodes w) ∧
    activityLogs (world o) = activityLogs w ++ [login_success_log ip v user] ∧
    CreateActivityLog (login_success_log ip v user) ∈ calls o ∧
    val o = AuthResult.mk true "Login successful" None None None
              (Some (randomBytes_hex e)) (Some user) ∧
    ∀ production,
      let response := verify_response production (val o) in
      status response = 200 ∧
      cookies response = [mkCookie "sessionToken" (Some (randomBytes_hex e))
                                   true production "strict"
                                   (24 * 60 * 60 * 1000)] ∧
      body response =
        JObj [("success", JBool true);
              ("message", JStr "Login successful");
              ("user", JObj [("id", JNum (User.id user));
                             ("email", JStr (User.email user));
                             ("name", JStr (User.name user));
                             ("role", JStr (User.role user))])] ∧
      keys (body response)
        = ["success"; "message"; "user"; "id"; "email"; "name"; "role"] ∧
      ∀ h, verify_response production
             (with_user (Some (with_passwordHash h user)) (val o))
           = response.
Proof.
  intros o. subst o.
  destruct (verify2FACode_inv e codeId inputCode ip w) as
    [Hn ->|v Hv Ht ->|v Hv Ht Hc ->|v Hv Ht Hc Hu ->
     |v user Hv Ht Hc Hf Ha ->]; simpl; try discriminate.
  intros _. exists v, user. split_and!; try done.
  - by rewrite delete_insert_eq.
  - set_solver.
Qed.
End Issue.

(** ** Expired sessions *)

Section Sessions.
Implicit Types (e : Env) (w : World) (s : AuthSession.t).

(** The first row of a token after all its rows were rewritten. *)
Lemma find_session_update token upd l :
  AuthSession.p_sessionToken upd = None →
  storage.find_session token (storage.update_sessions token upd l)
  = AuthSession.set upd <$> storage.find_session token l.
Proof.
  intros Hupd. unfold storage.find_session, storage.update_sessions.
  induction l as [|s l IH]; [done|]. simpl.
  destruct (bool_decide (AuthSession.sessionToken s = token)) eqn:Hs; simpl.
  - rewrite Hupd. simpl. by rewrite Hs.
  - rewrite Hs. apply IH.
Qed.

(** Claim C5.  For a session whose expiry is in the past, [verifySession]
    on its token returns invalid with neither user nor session; when the
    token is not the empty string, the only effect is the write-back of
    the active flag to false (issued when the session was still marked
    active), after which the session found under the token is inactive;
    and a second call, at any time, returns invalid again, with "Session
    is inactive", changing nothing. *)
Theorem verifySession_expired_is_idempotent e e' sessionToken w s :
  storage.find_session sessionToken (authSessions w) = Some s →
  AuthSession.expiresAt s < now e →
  let o := verifySession sessionToken e w in
  let o' := verifySession sessionToken e' (world o) in
  SessionVerification.valid (val o) = false ∧
  SessionVerification.user (val o) = None ∧
  SessionVerification.session (val o) = None ∧
  SessionVerification.valid (val o') = false ∧
  world o' = world o ∧
  (sessionToken ≠ "" →
     world o =
       (if AuthSession.isActive s
        then set_authSessions (storage.update_sessions sessionToken deactivate) w
        else w) ∧
     calls o =
       GetAuthSession sessionToken ::
       (if AuthSession.isActive s
        then [UpdateAuthSession sessionToken deactivate] else []) ∧
     storage.find_session sessionToken (authSessions (world o))
       = Some (AuthSession.set deactivate s) ∧
     AuthSession.set deactivate s
       = AuthSession.mk (AuthSession.userId s) (AuthSession.sessionToken s)
           (AuthSession.ipAddress s) (AuthSession.userAgent s) false
           (AuthSession.expiresAt s) ∧
     val o' = SessionVerification.invalid "Session is inactive" ∧
     calls o' = [GetAuthSession sessionToken]).
Proof.
  intros Hs Ht o o'. subst o o'.
  destruct (decide (sessionToken = "")) as [->|Hne].
  { munfold. simpl. split_and!; try done. }
  assert (Hfind : storage.find_session sessionToken
                    (storage.update_sessions sessionToken deactivate (authSessions w))
                  = Some (AuthSession.set deactivate s)).
  { rewrite find_session_update by done. by rewrite Hs. }
  munfold. simpl. rewrite bool_decide_eq_false_2 by done. simpl.
  rewrite Hs. simpl.
  destruct (AuthSession.isActive s) eqn:Ha; simpl.
  - rewrite bool_decide_eq_true_2 by done. simpl.
    rewrite Hfind. simpl. split_and!; try done.
  - rewrite Hs. simpl. rewrite Ha. simpl. split_and!; try done.
    intros _. split_and!; try done.
    f_equal. destruct s; simpl in *. by subst.
Qed.
End Sessions.

(** ** The first factor *)

Section FirstFactor.
Context `{Bcrypt}.
Implicit Types (e : Env) (w : World) (user : User.t).

(** Claim C6.  When the throttle lets the call through, [verifyCredentials]
    returns one and the same value, [{ success: false, message: "Invalid
    credentials" }], whether no user has the (lower-cased) email, the user
    is inactive, or the password does not match the stored hash, and in
    each case it counts exactly one more failure against the source
    address, stamped with the time of the call. *)
Theorem invalid_credentials_are_indistinguishable
    e email password ip userAgent w :
  locked_out w ip (now e) = false →
  let found := storage.find_user_by_email (toLowerCase email) (users w) in
  (unavailable found = true ∨
   ∃ user, found = Some user ∧
           bcrypt_compare password (User.passwordHash user) = false) →
  let o := verifyCredentials email password ip userAgent e w in
  val o = AuthResult.failure "Invalid credentials" ∧
  loginAttempts (world o) =
    <[ip := LoginAttempt.mk (failures_so_far w ip + 1) (now e)]>
      (loginAttempts w).
Proof.
  intros Hl found Hcase o.
  assert (Hval : val o = AuthResult.failure "Invalid credentials").
  { subst o found. unfold locked_out, unavailable in *. munfold. simpl.
    destruct Hcase as [Hu | (user & Hf & Hp)].
    - branches; try discriminate; reflexivity.
    - branches; simplify_eq; try congruence; reflexivity. }
  split; [done|].
  apply credential_failure_counts; [done|].
  fold o. by rewrite Hval.
Qed.
End FirstFactor.

(** ** Changing the password *)

Section Password.
Context `{Bcrypt}.
Implicit Types (e : Env) (w : World) (user : User.t).

Lemma find_user_by_id_update userId upd l :
  storage.find_user_by_id userId (storage.update_users userId upd l)
  = User.set upd <$> storage.find_user_by_id userId l.
Proof.
  unfold storage.find_user_by_id, storage.update_users.
  induction l as [|u l IH]; [done|]. simpl.
  destruct (bool_decide (User.id u = userId)) eqn:Hu; simpl; rewrite Hu; [done|].
  apply IH.
Qed.

(** After the update every row of the user carries the new hash. *)
Lemma updated_rows_have_the_new_hash userId h l u :
  u ∈ storage.update_users userId (new_passwordHash h) l →
  User.id u = userId →
  User.passwordHash u = h.
Proof.
  unfold storage.update_users. intros Hin Hid.
  apply list_elem_of_fmap in Hin as (u0 & -> & _).
  by case_bool_decide.
Qed.

Lemma find_user_by_email_elem email l u :
  storage.find_user_by_email email l = Some u → u ∈ l.
Proof.
  unfold storage.find_user_by_email. intros Hf.
  apply find_some in Hf as [Hin _]. by apply list_elem_of_In.
Qed.

(** A password that does not match the stored hash never passes the first
    step. *)
Lemma wrong_password_fails e email password ip userAgent w user :
  storage.find_user_by_email (toLowerCase email) (users w) = Some user →
  bcrypt_compare password (User.passwordHash user) = false →
  AuthResult.success (val (verifyCredentials email password ip userAgent e w))
  = false.
Proof.
  intros Hf Hp. munfold. simpl.
  branches; simplify_eq; try congruence; reflexivity.
Qed.

(** The first step reads the password only through its comparison with
    the stored hash. *)
Lemma password_read_through_compare e email p p' ip userAgent w user :
  storage.find_user_by_email (toLowerCase email) (users w) = Some user →
  bcrypt_compare p (User.passwordHash user)
    = bcrypt_compare p' (User.passwordHash user) →
  val (verifyCredentials email p ip userAgent e w)
    = val (verifyCredentials email p' ip userAgent e w) ∧
  world (verifyCredentials email p ip userAgent e w)
    = world (verifyCredentials email p' ip userAgent e w).
Proof.
  intros Hf Hp. munfold. simpl.
  destruct (loginAttempts w !! ip) as [a|]; simpl.
  - destruct (bool_decide (maxLoginAttempts ≤ LoginAttempt.count a)); simpl.
    + destruct (bool_decide (now e - LoginAttempt.lastAttempt a < lockoutDuration));
        simpl; [done|].
      rewrite Hf. simpl. rewrite Hp. by branches.
    + rewrite Hf. simpl. rewrite Hp. by branches.
  - rewrite Hf. simpl. rewrite Hp. by branches.
Qed.

(** Claim C7, as amended.  [changePassword] fails with "Current password
    is incorrect" whenever the current password does not match the stored
    hash, and then changes nothing: the only calls are the lookup and the
    comparison, no user update is issued.  When it matches, the new
    password, whatever it is, is hashed and the hash stored on the user's
    rows: the calls are the lookup, the comparison of the current
    password with the stored hash, the hashing, the update and the audit
    entry, so the new password is never compared with the current one.
    From then on what [verifyCredentials] answers the old password for
    this user is decided by [bcrypt.compare] against the new hash: if the
    comparison rejects it, the old password fails; if the comparison
    accepts it as it accepts the new password (as when the new password
    is the old one), the old password is answered exactly as the new
    one. *)
Theorem changePassword_checks_the_current_password
    e userId currentPassword newPassword w user :
  storage.find_user_by_id userId (users w) = Some user →
  let o := changePassword userId currentPassword newPassword e w in
  let h := bcrypt_hash newPassword 12 (genSalt e) in
  (bcrypt_compare currentPassword (User.passwordHash user) = false →
     o = mkOut (false, "Current password is incorrect") w
           [GetUser userId;
            BcryptCompare currentPassword (User.passwordHash user)]) ∧
  (bcrypt_compare currentPassword (User.passwordHash user) = true →
     o = mkOut (true, "Password changed successfully")
           (set_activityLogs (λ l, l ++ [password_change_log userId])
              (set_users (storage.update_users userId (new_passwordHash h)) w))
           [GetUser userId;
            BcryptCompare currentPassword (User.passwordHash user);
            BcryptHash newPassword 12;
            UpdateUser userId (new_passwordHash h);
            CreateActivityLog (password_change_log userId)] ∧
     storage.find_user_by_id userId (users (world o))
       = Some (with_passwordHash h user) ∧
     User.passwordHash (with_passwordHash h user) = h ∧
     (bcrypt_compare currentPassword h = false →
      ∀ e' email ip userAgent user',
        storage.find_user_by_email (toLowerCase email) (users (world o))
          = Some user' →
        User.id user' = userId →
        AuthResult.success
          (val (verifyCredentials email currentPassword ip userAgent e' (world o)))
        = false) ∧
     (bcrypt_compare currentPassword h = true →
      bcrypt_compare newPassword h = true →
      ∀ e' email ip userAgent user',
        storage.find_user_by_email (toLowerCase email) (users (world o))
          = Some user' →
        User.id user' = userId →
        val (verifyCredentials email currentPassword ip userAgent e' (world o))
        = val (verifyCredentials email newPassword ip userAgent e' (world o)) ∧
        world (verifyCredentials email currentPassword ip userAgent e' (world o))
        = world (verifyCredentials email newPassword ip userAgent e' (world o)))).
Proof.
  intros Hf o h.
  assert (Hno : bcrypt_compare currentPassword (User.passwordHash user) = false →
                o = mkOut (false, "Current password is incorrect") w
                      [GetUser userId;
                       BcryptCompare currentPassword (User.passwordHash user)]).
  { intros Hp. subst o. munfold. simpl. rewrite Hf. simpl. by rewrite Hp. }
  split; [done|]. intros Hp.
  assert (Ho : o = mkOut (true, "Password changed successfully")
           (set_activityLogs (λ l, l ++ [password_change_log userId])
              (set_users (storage.update_users userId (new_passwordHash h)) w))
           [GetUser userId;
            BcryptCompare currentPassword (User.passwordHash user);
            BcryptHash newPassword 12;
            UpdateUser userId (new_passwordHash h);
            CreateActivityLog (password_change_log userId)]).
  { subst o. munfold. simpl. rewrite Hf. simpl. by rewrite Hp. }
  split; [done|]. rewrite Ho. simpl.
  split; [by rewrite find_user_by_id_update, Hf|]. split; [done|].
  assert (Hhash : ∀ email user',
    storage.find_user_by_email (toLowerCase email)
      (storage.update_users userId (new_passwordHash h) (users w)) = Some user' →
    User.id user' = userId → User.passwordHash user' = h).
  { intros email user' Hf' Hid.
    eapply updated_rows_have_the_new_hash; [|done].
    by apply find_user_by_email_elem in Hf'. }
  split.
  - intros Hold e' email ip userAgent user' Hf' Hid.
    apply (wrong_password_fails _ _ _ _ _ _ user'); [done|].
    by rewrite (Hhash email user').
  - intros Hold Hnew e' email ip userAgent user' Hf' Hid.
    apply (password_read_through_compare _ _ _ _ _ _ _ user'); [done|].
    rewrite (Hhash email user') by done. by rewrite Hold, Hnew.
Qed.
End Password.

(** ** A code that could not be delivered *)

Section Undelivered.
Context `{Bcrypt}.
Implicit Types (e : Env) (w : World) (user : User.t).

Lemma find_user_by_email_again email l user :
  storage.find_user_by_email email l = Some user →
  storage.find_user_by_email (User.email user) l = Some user.
Proof.
  unfold storage.find_user_by_email. intros Hf.
  pose proof (find_some _ _ Hf) as [_ He].
  apply bool_decide_eq_true in He. by rewrite He.
Qed.

(** Claim C9, as amended.  When the throttle, the credentials and the
    allow-list let the call through, the deployment is not in development
    mode and the dispatch fails (no transporter, or [sendMail] rejects),
    [verifyCredentials] fails with "Failed to send verification code" and
    returns no code identifier, while the entry it stored before
    dispatching stays in the cache, unused and with its expiry.  From any
    later state that still holds an entry under that identifier, a request
    removes it only if it is the cleanup sweep after the expiry, or a
    [verify2FACode] call with that identifier which finds it expired or is
    accepted: until it expires the entry is as good as a delivered one, a
    call presenting the identifier and the code from the same address is
    accepted and consumes it. *)
Theorem undelivered_code_stays_stored
    e email password ip userAgent w user :
  locked_out w ip (now e) = false →
  storage.find_user_by_email (toLowerCase email) (users w) = Some user →
  User.isActive user = true →
  bcrypt_compare password (User.passwordHash user) = true →
  val (isIPWhitelisted user ip e w) = true →
  development e = false →
  (emailTransporter w && sendMail_ok e)%bool = false →
  let o := verifyCredentials email password ip userAgent e w in
  let entry := VerificationCode.mk (random_code e) (User.email user) ip
                 userAgent (now e + codeExpiry) false in
  val o = AuthResult.failure "Failed to send verification code" ∧
  AuthResult.codeId (val o) = None ∧
  verificationCodes (world o) = <[randomUUID e := entry]> (verificationCodes w) ∧
  users (world o) = users w ∧
  (∀ e1 r w1 v1,
     verificationCodes w1 !! randomUUID e = Some v1 →
     verificationCodes (world (serve r e1 w1)) !! randomUUID e = None →
     (r = CleanupExpiredData ∧ VerificationCode.expiresAt v1 < now e1) ∨
     (∃ inputCode ip',
         r = Verify2FACode (randomUUID e) inputCode ip' ∧
         (VerificationCode.expiresAt v1 < now e1 ∨
          AuthResult.success
            (val (verify2FACode (randomUUID e) inputCode ip' e1 w1)) = true))) ∧
  (∀ e1,
     now e1 ≤ now e + codeExpiry →
     let o1 := verify2FACode (randomUUID e) (random_code e) ip e1 (world o) in
     AuthResult.success (val o1) = true ∧
     verificationCodes (world o1) !! randomUUID e = None).
Proof.
  intros Hl Hf Ha Hp Hw Hdev Hmail o entry.
  assert (Ho : val o = AuthResult.failure "Failed to send verification code" ∧
               verificationCodes (world o)
                 = <[randomUUID e := entry]> (verificationCodes w) ∧
               users (world o) = users w).
  { subst o entry. unfold locked_out in Hl. munfold. simpl in *.
    repeat (match goal with
            | |- context [match ?x with _ => _ end] => branch_on x
            end; simpl in *; simplify_eq); done. }
  destruct Ho as (Hval & Hcodes & Husers).
  split_and!; try done.
  - by rewrite Hval.
  - intros e1 r w1 v1. apply removed_only_by.
  - intros e1 Ht o1. subst o1.
    rewrite (verify2FACode_accepted e1 _ _ _ _ entry user).
    + simpl. split; [done|]. apply lookup_delete_eq.
    + rewrite Hcodes. apply lookup_insert_eq.
    + unfold code_checks_pass. subst entry. simpl.
      rewrite bool_decide_eq_false_2 by lia.
      by rewrite !bool_decide_eq_true_2.
    + rewrite Husers. subst entry. simpl.
      by eapply find_user_by_email_again.
    + done.
Qed.
End Undelivered.

(** * The properties at work on concrete runs *)

Section Examples.
#[local] Existing Instance toy_bcrypt.

(** Claim C1 as stated fails: alice's code is accepted at time 2000; the
    same code submitted again at time 3000, well before the expiry at
    301000, is not answered with "Verification code already used" but
    with "Invalid or expired verification code". *)
Lemma resubmitted_code_is_not_reported_as_used :
  let o := verify2FACode "uuid-1" "123456" "1.2.3.4" (env_at 2000) world_pending in
  let o' := verify2FACode "uuid-1" "123456" "1.2.3.4" (env_at 3000) (world o) in
  verificationCodes world_pending !! "uuid-1" = Some pending_code ∧
  AuthResult.success (val o) = true ∧
  3000 ≤ VerificationCode.expiresAt pending_code ∧
  val o' = AuthResult.failure "Invalid or expired verification code" ∧
  val o' ≠ AuthResult.failure "Verification code already used".
Proof. vm_compute. split_and!; try done. Qed.

(** The theorem of claim C1 on that run: the accepted code is gone, and any
    further submission finds no entry. *)
Lemma code_accepted_once_and_before_expiry_witness :
  let o := verify2FACode "uuid-1" "123456" "1.2.3.4" (env_at 2000) world_pending in
  verificationCodes world_pending !! "uuid-1" = Some pending_code ∧
  AuthResult.success (val o) = true ∧
  (2000 ≤ VerificationCode.expiresAt pending_code ∧
   VerificationCode.used pending_code = false ∧
   verificationCodes (world o) !! "uuid-1" = None ∧
   ∀ e' inputCode' ip',
     val (verify2FACode "uuid-1" inputCode' ip' e' (world o))
     = AuthResult.failure "Invalid or expired verification code").
Proof.
  intros o.
  assert (Hv : verificationCodes world_pending !! "uuid-1" = Some pending_code)
    by (vm_compute; reflexivity).
  assert (Hs : AuthResult.success (val o) = true) by (vm_compute; reflexivity).
  split; [exact Hv|]. split; [exact Hs|].
  exact (proj1 (proj2 (code_accepted_once_and_before_expiry
                         (env_at 2000) "uuid-1" "123456" "1.2.3.4"
                         world_pending pending_code Hv)) Hs).
Defined.

(** Claim C2 as stated fails: the value [verify2FACode] returns for alice
    carries her stored password hash. *)
Lemma returned_user_carries_the_password_hash :
  let o := verify2FACode "uuid-1" "123456" "1.2.3.4" (env_at 2000) world_pending in
  AuthResult.success (val o) = true ∧
  AuthResult.user (val o) = Some alice ∧
  User.passwordHash <$> AuthResult.user (val o) = Some "$2b$12$s0$secret123".
Proof. vm_compute. split_and!; done. Qed.

(** The theorem of claim C2 on alice's accepted verification. *)
Lemma success_returns_the_stored_user_witness :
  let o := verify2FACode "uuid-1" "123456" "1.2.3.4" (env_at 2000) world_pending in
  AuthResult.success (val o) = true ∧
  ∃ v user,
    verificationCodes world_pending !! "uuid-1" = Some v ∧
    storage.find_user_by_email (VerificationCode.email v) (users world_pending)
      = Some user ∧
    verificationCodes (world o) = delete "uuid-1" (verificationCodes world_pending) ∧
    val o = AuthResult.mk true "Login successful" None None None
              (Some "tok-1") (Some user).
Proof.
  intros o.
  assert (Hs : AuthResult.success (val o) = true) by (vm_compute; reflexivity).
  split; [exact Hs|].
  destruct (success_returns_the_stored_user
              (env_at 2000) "uuid-1" "123456" "1.2.3.4" world_pending Hs)
    as (v & user & Hv & Hf & Hd & _ & _ & Hval & _).
  exists v, user. split; [exact Hv|]. split; [exact Hf|]. split; [exact Hd|].
  exact Hval.
Defined.

(** Claim C3 as stated fails, in two ways.  Three consecutive calls that
    fail because the code could not be dispatched are not counted: the
    fourth call, a wrong password, is evaluated and answered "Invalid
    credentials".  And the lockout that follows three wrong passwords is
    lifted inside the window by a completed login from the address: the
    call at time 3500 is rejected, the code issued earlier is accepted at
    time 4000, and the wrong password at time 5000, less than 15 minutes
    after the failure at time 3000, is evaluated again. *)
Lemma failed_calls_do_not_always_lock_out :
  (run [right_password 1000; right_password 2000; right_password 3000;
        wrong_password 4000] world0).1
  = [RAuth (AuthResult.failure "Failed to send verification code");
     RAuth (AuthResult.failure "Failed to send verification code");
     RAuth (AuthResult.failure "Failed to send verification code");
     RAuth (AuthResult.failure "Invalid credentials")] ∧
  (run [wrong_password 1000; wrong_password 2000; wrong_password 3000;
        wrong_password 3500;
        (env_at 4000, Verify2FACode "uuid-1" "123456" "1.2.3.4");
        wrong_password 5000] world_pending).1
  = [RAuth (AuthResult.failure "Invalid credentials");
     RAuth (AuthResult.failure "Invalid credentials");
     RAuth (AuthResult.failure "Invalid credentials");
     RAuth (AuthResult.failure
              "Too many login attempts. Try again in 900 seconds.");
     RAuth (AuthResult.mk true "Login successful" None None None
                          (Some "tok-1") (Some alice));
     RAuth (AuthResult.failure "Invalid credentials")] ∧
  5000 - 3000 < lockoutDuration.
Proof. vm_compute. split_and!; reflexivity. Qed.

(** The theorem of claim C3 on three wrong passwords from one address, from
    a cleared counter: the counter reaches the maximum, stamped with the
    time of the third; after a rejected call, a failed second factor and
    a sweep, the call at time 7000 is told to wait the 896 seconds that
    are left. *)
Lemma lockout_after_max_failures_witness :
  let l := [wrong_password 1000; wrong_password 2000; wrong_password 3000] in
  let further :=
    [wrong_password 4000;
     (env_at 5000, Verify2FACode "uuid-1" "000000" "1.2.3.4");
     (env_at 6000, CleanupExpiredData)] in
  let o := verifyCredentials "a@b.com" "secret123" "1.2.3.4" "UA" (env_at 7000)
             (run further (run l world_pending).2).2 in
  failures_so_far world_pending "1.2.3.4" + Z.of_nat (List.length l)
    = maxLoginAttempts ∧
  Forall (login_from "1.2.3.4") l ∧
  Forall (λ rep, credential_failure rep = true) (run l world_pending).1 ∧
  loginAttempts (run l world_pending).2 !! "1.2.3.4"
    = Some (LoginAttempt.mk 3 3000) ∧
  Forall (λ er, now er.1 < 3000 + lockoutDuration) further ∧
  logins_completed "1.2.3.4" further (run l world_pending).2 = 0%nat ∧
  val o = AuthResult.failure "Too many login attempts. Try again in 896 seconds." ∧
  world o = (run further (run l world_pending).2).2 ∧
  calls o = [].
Proof.
  intros l further o.
  assert (Hsum : failures_so_far world_pending "1.2.3.4"
                 + Z.of_nat (List.length l) = maxLoginAttempts)
    by (vm_compute; reflexivity).
  assert (Hfrom : Forall (login_from "1.2.3.4") l) by (repeat constructor).
  assert (Hfail : Forall (λ rep, credential_failure rep = true)
                         (run l world_pending).1)
    by (vm_compute; repeat constructor).
  assert (Hentry : loginAttempts (run l world_pending).2 !! "1.2.3.4"
                   = Some (LoginAttempt.mk 3 3000))
    by (vm_compute; reflexivity).
  assert (Hfur : Forall (λ er, now er.1 < 3000 + lockoutDuration) further)
    by (repeat constructor).
  assert (Hno : logins_completed "1.2.3.4" further (run l world_pending).2
                = 0%nat) by (vm_compute; reflexivity).
  split; [exact Hsum|]. split; [exact Hfrom|]. split; [exact Hfail|].
  split; [exact Hentry|]. split; [exact Hfur|]. split; [exact Hno|].
  destruct (lockout_after_max_failures "1.2.3.4" world_pending l Hsum Hfrom Hfail)
    as (_ & _ & (a & Ha & _ & _ & Hlock) & _ & _).
  rewrite Hentry in Ha. injection Ha as <-.
  destruct (Hlock further Hfur Hno (env_at 7000) "a@b.com" "secret123" "UA")
    as [Hin _].
  destruct Hin as ((seconds & Hsec & Hval) & Hw & Hc);
    [vm_compute; reflexivity|].
  split; [|split; [exact Hw | exact Hc]].
  assert (seconds = 896) as -> by (simpl in Hsec; unfold lockoutDuration in Hsec; lia).
  exact Hval.
Defined.

(** The theorem of claim C4 on bob, deactivated after his code was issued:
    the checks on the code pass, no session is created. *)
Lemma no_session_for_unavailable_user_witness :
  let o := verify2FACode "uuid-2" "654321" "10.0.0.1" (env_at 2000) world_bob in
  verificationCodes world_bob !! "uuid-2" = Some bob_code ∧
  code_checks_pass (env_at 2000) "654321" "10.0.0.1" bob_code = true ∧
  unavailable (storage.find_user_by_email (VerificationCode.email bob_code)
                 (users world_bob)) = true ∧
  (val o = AuthResult.failure "User not found or inactive" ∧
   AuthResult.sessionToken (val o) = None ∧
   authSessions (world o) = authSessions world_bob ∧
   ∀ s, CreateAuthSession s ∉ calls o).
Proof.
  intros o.
  assert (Hv : verificationCodes world_bob !! "uuid-2" = Some bob_code)
    by (vm_compute; reflexivity).
  assert (Hc : code_checks_pass (env_at 2000) "654321" "10.0.0.1" bob_code = true)
    by (vm_compute; reflexivity).
  assert (Hu : unavailable (storage.find_user_by_email
                              (VerificationCode.email bob_code)
                              (users world_bob)) = true)
    by (vm_compute; reflexivity).
  split; [exact Hv|]. split; [exact Hc|]. split; [exact Hu|].
  exact (proj2 (proj2 (no_session_for_unavailable_user
                         (env_at 2000) "uuid-2" "654321" "10.0.0.1" world_bob))
               bob_code Hv Hc Hu).
Defined.

(** The theorem of claim C5 on a session that expired at time 5000. *)
Lemma verifySession_expired_is_idempotent_witness :
  let o := verifySession "tok-0" (env_at 6000) world_session in
  let o' := verifySession "tok-0" (env_at 7000) (world o) in
  storage.find_session "tok-0" (authSessions world_session) = Some old_session ∧
  AuthSession.expiresAt old_session < now (env_at 6000) ∧
  SessionVerification.valid (val o) = false ∧
  SessionVerification.valid (val o') = false ∧
  world o' = world o.
Proof.
  intros o o'.
  assert (Hs : storage.find_session "tok-0" (authSessions world_session)
               = Some old_session) by (vm_compute; reflexivity).
  assert (Ht : AuthSession.expiresAt old_session < now (env_at 6000))
    by (vm_compute; reflexivity).
  split; [exact Hs|]. split; [exact Ht|].
  destruct (verifySession_expired_is_idempotent
              (env_at 6000) (env_at 7000) "tok-0" world_session old_session Hs Ht)
    as (H1 & _ & _ & H2 & H3 & _).
  split; [exact H1|]. split; [exact H2|]. exact H3.
Defined.

(** The theorem of claim C6 on an email that no user has. *)
Lemma invalid_credentials_are_indistinguishable_witness :
  let o := verifyCredentials "nobody@b.com" "secret123" "1.2.3.4" "UA"
             (env_at 1000) world0 in
  locked_out world0 "1.2.3.4" (now (env_at 1000)) = false ∧
  unavailable (storage.find_user_by_email (toLowerCase "nobody@b.com")
                 (users world0)) = true ∧
  val o = AuthResult.failure "Invalid credentials" ∧
  loginAttempts (world o) =
    <[ "1.2.3.4" := LoginAttempt.mk (failures_so_far world0 "1.2.3.4" + 1)
                                    (now (env_at 1000)) ]>
      (loginAttempts world0).
Proof.
  intros o.
  assert (Hl : locked_out world0 "1.2.3.4" (now (env_at 1000)) = false)
    by (vm_compute; reflexivity).
  assert (Hu : unavailable (storage.find_user_by_email (toLowerCase "nobody@b.com")
                              (users world0)) = true)
    by (vm_compute; reflexivity).
  split; [exact Hl|]. split; [exact Hu|].
  exact (invalid_credentials_are_indistinguishable
           (env_at 1000) "nobody@b.com" "secret123" "1.2.3.4" "UA" world0
           Hl (or_introl Hu)).
Defined.

(** Claim C7 as stated fails: alice changes her password to the one she
    already has; the change succeeds and the old password still passes
    [verifyCredentials]. *)
Lemma old_password_passes_when_chosen_again :
  let o := changePassword 1 "secret123" "secret123" (env_at 1000) world0 in
  val o = (true, "Password changed successfully") ∧
  AuthResult.success
    (val (verifyCredentials "a@b.com" "secret123" "1.2.3.4" "UA"
            (dev_at 2000) (world o))) = true.
Proof. vm_compute. split; reflexivity. Qed.

(** The theorem of claim C7 on alice: with a wrong current password
    nothing changes; with the right one the new hash is stored, and the
    old password, which the new hash rejects, fails the first step. *)
Lemma changePassword_checks_the_current_password_witness :
  let o := changePassword 1 "letmein" "newsecret" (env_at 1000) world0 in
  let o' := changePassword 1 "secret123" "newsecret" (env_at 1000) world0 in
  storage.find_user_by_id 1 (users world0) = Some alice ∧
  bcrypt_compare "letmein" (User.passwordHash alice) = false ∧
  o = mkOut (false, "Current password is incorrect") world0
        [GetUser 1; BcryptCompare "letmein" (User.passwordHash alice)] ∧
  bcrypt_compare "secret123" (User.passwordHash alice) = true ∧
  bcrypt_compare "secret123" (bcrypt_hash "newsecret" 12 (genSalt (env_at 1000)))
    = false ∧
  val o' = (true, "Password changed successfully") ∧
  storage.find_user_by_email (toLowerCase "a@b.com") (users (world o'))
    = Some (with_passwordHash "$2b$12$s1$newsecret" alice) ∧
  AuthResult.success
    (val (verifyCredentials "a@b.com" "secret123" "1.2.3.4" "UA"
            (dev_at 2000) (world o'))) = false.
Proof.
  intros o o'.
  assert (Hf : storage.find_user_by_id 1 (users world0) = Some alice)
    by (vm_compute; reflexivity).
  assert (Hp : bcrypt_compare "letmein" (User.passwordHash alice) = false)
    by (vm_compute; reflexivity).
  assert (Hp' : bcrypt_compare "secret123" (User.passwordHash alice) = true)
    by (vm_compute; reflexivity).
  assert (Hold : bcrypt_compare "secret123"
                   (bcrypt_hash "newsecret" 12 (genSalt (env_at 1000))) = false)
    by (vm_compute; reflexivity).
  assert (Hf' : storage.find_user_by_email (toLowerCase "a@b.com")
                  (users (world o'))
                = Some (with_passwordHash "$2b$12$s1$newsecret" alice))
    by (vm_compute; reflexivity).
  split; [exact Hf|]. split; [exact Hp|].
  split; [exact (proj1 (changePassword_checks_the_current_password
                          (env_at 1000) 1 "letmein" "newsecret" world0 alice Hf)
                       Hp)|].
  split; [exact Hp'|]. split; [exact Hold|].
  destruct (proj2 (changePassword_checks_the_current_password
                     (env_at 1000) 1 "secret123" "newsecret" world0 alice Hf)
                  Hp') as (Ho & _ & _ & Hfails & _).
  split; [exact (f_equal val Ho)|]. split; [exact Hf'|].
  exact (Hfails Hold (dev_at 2000) "a@b.com" "1.2.3.4" "UA" _ Hf' eq_refl).
Defined.

(** The theorem of claim C8 on bob's code: the second submission is answered
    with "Verification code already used". *)
Lemma unavailable_user_burns_the_code_witness :
  let o := verify2FACode "uuid-2" "654321" "10.0.0.1" (env_at 2000) world_bob in
  verificationCodes world_bob !! "uuid-2" = Some bob_code ∧
  code_checks_pass (env_at 2000) "654321" "10.0.0.1" bob_code = true ∧
  unavailable (storage.find_user_by_email (VerificationCode.email bob_code)
                 (users world_bob)) = true ∧
  val o = AuthResult.failure "User not found or inactive" ∧
  val (verify2FACode "uuid-2" "654321" "10.0.0.1" (env_at 3000) (world o))
  = AuthResult.failure "Verification code already used".
Proof.
  intros o.
  assert (Hv : verificationCodes world_bob !! "uuid-2" = Some bob_code)
    by (vm_compute; reflexivity).
  assert (Hc : code_checks_pass (env_at 2000) "654321" "10.0.0.1" bob_code = true)
    by (vm_compute; reflexivity).
  assert (Hu : unavailable (storage.find_user_by_email
                              (VerificationCode.email bob_code)
                              (users world_bob)) = true)
    by (vm_compute; reflexivity).
  split; [exact Hv|]. split; [exact Hc|]. split; [exact Hu|].
  destruct (unavailable_user_burns_the_code
              (env_at 2000) "uuid-2" "654321" "10.0.0.1" world_bob bob_code
              Hv Hc Hu) as (Hval & _ & _ & _ & Hlater).
  split; [exact Hval|].
  destruct (Hlater [] (Forall_nil_2 _)) as [_ Hused].
  assert (Ht : now (env_at 3000) ≤ VerificationCode.expiresAt bob_code)
    by (vm_compute; discriminate).
  exact (f_equal val (Hused (env_at 3000) "654321" "10.0.0.1" Ht)).
Defined.

(** Claim C9 as stated fails: the dispatch of alice's code fails at time
    1000 and no identifier is returned, yet the entry is removed at time
    2000, long before its expiry, by neither an expired lookup nor the
    sweep: a [verify2FACode] call presenting the identifier and the code
    is accepted and consumes it. *)
Lemma undelivered_code_is_consumed_by_a_verification :
  let o := verifyCredentials "a@b.com" "secret123" "1.2.3.4" "UA"
             (env_at 1000) world0 in
  let o' := verify2FACode "uuid-1" "123456" "1.2.3.4" (env_at 2000) (world o) in
  val o = AuthResult.failure "Failed to send verification code" ∧
  verificationCodes (world o) !! "uuid-1" = Some pending_code ∧
  now (env_at 2000) ≤ VerificationCode.expiresAt pending_code ∧
  AuthResult.success (val o') = true ∧
  verificationCodes (world o') !! "uuid-1" = None.
Proof. vm_compute. split_and!; done. Qed.

(** The theorem of claim C9 on alice's login without a mail transport. *)
Lemma undelivered_code_stays_stored_witness :
  let o := verifyCredentials "a@b.com" "secret123" "1.2.3.4" "UA"
             (env_at 1000) world0 in
  locked_out world0 "1.2.3.4" (now (env_at 1000)) = false ∧
  storage.find_user_by_email (toLowerCase "a@b.com") (users world0) = Some alice ∧
  User.isActive alice = true ∧
  bcrypt_compare "secret123" (User.passwordHash alice) = true ∧
  val (isIPWhitelisted alice "1.2.3.4" (env_at 1000) world0) = true ∧
  development (env_at 1000) = false ∧
  (emailTransporter world0 && sendMail_ok (env_at 1000))%bool = false ∧
  val o = AuthResult.failure "Failed to send verification code" ∧
  AuthResult.codeId (val o) = None ∧
  verificationCodes (world o) !! "uuid-1" = Some pending_code.
Proof.
  intros o.
  assert (H1 : locked_out world0 "1.2.3.4" (now (env_at 1000)) = false)
    by (vm_compute; reflexivity).
  assert (H2 : storage.find_user_by_email (toLowerCase "a@b.com") (users world0)
               = Some alice) by (vm_compute; reflexivity).
  assert (H3 : User.isActive alice = true) by reflexivity.
  assert (H4 : bcrypt_compare "secret123" (User.passwordHash alice) = true)
    by (vm_compute; reflexivity).
  assert (H5 : val (isIPWhitelisted alice "1.2.3.4" (env_at 1000) world0) = true)
    by (vm_compute; reflexivity).
  assert (H6 : development (env_at 1000) = false) by reflexivity.
  assert (H7 : (emailTransporter world0 && sendMail_ok (env_at 1000))%bool = false)
    by reflexivity.
  destruct (undelivered_code_stays_stored
              (env_at 1000) "a@b.com" "secret123" "1.2.3.4" "UA" world0 alice
              H1 H2 H3 H4 H5 H6 H7) as (Hval & Hid & Hcodes & _).
  repeat (split; [assumption|]).
  fold o in Hcodes. rewrite Hcodes. vm_compute. reflexivity.
Defined.

End Examples.

(** * Further properties of the service *)

(** ** Sessions: verification and logout *)

Section SessionLifecycle.
Implicit Types (e : Env) (w : World) (s : AuthSession.t).

Lemma find_session_deleted token l :
  storage.find_session token (storage.delete_sessions token l) = None.
Proof.
  unfold storage.find_session, storage.delete_sessions.
  induction l as [|s l IH]; [done|]. simpl.
  destruct (bool_decide (AuthSession.sessionToken s = token)) eqn:Hs; simpl;
    [done|]. by rewrite Hs.
Qed.

Lemma find_session_deleted_other token other l :
  other ≠ token →
  storage.find_session other (storage.delete_sessions token l)
  = storage.find_session other l.
Proof.
  intros Hne. unfold storage.find_session, storage.delete_sessions.
  induction l as [|s l IH]; [done|]. simpl.
  destruct (bool_decide (AuthSession.sessionToken s = token)) eqn:Hs; simpl.
  - apply bool_decide_eq_true in Hs.
    rewrite bool_decide_eq_false_2 by congruence. done.
  - by rewrite IH.
Qed.

(** Rows are deleted exactly when the token is found. *)
Lemma deleted_rows_iff_found token l :
  bool_decide
    (0 < List.length
           (List.filter (λ s, bool_decide (AuthSession.sessionToken s = token)) l))%nat
  = bool_decide (is_Some (storage.find_session token l)).
Proof.
  apply bool_decide_ext. unfold storage.find_session.
  induction l as [|s l IH]; simpl.
  - split; [lia | by intros [? ?]].
  - destruct (bool_decide (AuthSession.sessionToken s = token)); simpl; [|done].
    split; [eauto | lia].
Qed.

(** Property X1.
    Logout deletes every session row of the token and tells whether there
    was one; the other sessions, the users, the codes and the throttle are
    not touched.  Afterwards the token is unknown: [verifySession] finds it
    invalid and a second logout answers "Session not found". *)
Theorem logout_ends_the_session e e' sessionToken w :
  let o := logout sessionToken e w in
  val o =
    (if bool_decide (is_Some (storage.find_session sessionToken (authSessions w)))
     then (true, "Logged out successfully")
     else (false, "Session not found")) ∧
  world o = set_authSessions (storage.delete_sessions sessionToken) w ∧
  storage.find_session sessionToken (authSessions (world o)) = None ∧
  (∀ other, other ≠ sessionToken →
     storage.find_session other (authSessions (world o))
     = storage.find_session other (authSessions w)) ∧
  SessionVerification.valid (val (verifySession sessionToken e' (world o)))
    = false ∧
  val (logout sessionToken e' (world o)) = (false, "Session not found").
Proof.
  intros o. subst o. munfold. simpl.
  rewrite !deleted_rows_iff_found, !find_session_deleted.
  split_and!; try done.
  - destruct (bool_decide (is_Some _)); reflexivity.
  - intros other Hne. by apply find_session_deleted_other.
  - destruct (bool_decide (sessionToken = "")); simpl; [done|].
    by rewrite find_session_deleted.
Qed.

Lemma verifySession_accepts e sessionToken w s user :
  sessionToken ≠ "" →
  storage.find_session sessionToken (authSessions w) = Some s →
  AuthSession.isActive s = true →
  now e ≤ AuthSession.expiresAt s →
  storage.find_user_by_id (AuthSession.userId s) (users w) = Some user →
  User.isActive user = true →
  verifySession sessionToken e w =
    mkOut (SessionVerification.mk true None (Some user) (Some s)) w
          [GetAuthSession sessionToken; GetUser (AuthSession.userId s)].
Proof.
  intros Hne Hs Ha Ht Hu Hua. munfold. simpl.
  rewrite bool_decide_eq_false_2 by done. simpl. rewrite Hs. simpl.
  rewrite Ha. simpl. rewrite bool_decide_eq_false_2 by lia. simpl.
  rewrite Hu. simpl. by rewrite Hua.
Qed.

Lemma verifySession_valid_inv e sessionToken w :
  SessionVerification.valid (val (verifySession sessionToken e w)) = true →
  ∃ s user,
    sessionToken ≠ "" ∧
    storage.find_session sessionToken (authSessions w) = Some s ∧
    AuthSession.isActive s = true ∧
    now e ≤ AuthSession.expiresAt s ∧
    storage.find_user_by_id (AuthSession.userId s) (users w) = Some user ∧
    User.isActive user = true.
Proof.
  munfold. simpl. intros Hvalid.
  repeat (match goal with
          | H : context [match ?x with _ => _ end] |- _ => branch_on x
          end; simpl in *; simplify_eq).
  do 2 eexists. split_and!; try done.
  - by apply bool_decide_eq_false in Heqb.
  - apply bool_decide_eq_false in Heqb1. lia.
Qed.


(** Property X3.
    A session used while its owner is absent or inactive is revoked for
    good: the call fails with "User not found or inactive" and writes the
    active flag back to false, and whatever becomes of the users table
    later (the user may be active again), the token stays invalid. *)
Theorem session_of_unavailable_user_is_revoked e sessionToken w s :
  sessionToken ≠ "" →
  storage.find_session sessionToken (authSessions w) = Some s →
  AuthSession.isActive s = true →
  now e ≤ AuthSession.expiresAt s →
  unavailable (storage.find_user_by_id (AuthSession.userId s) (users w)) = true →
  let o := verifySession sessionToken e w in
  val o = SessionVerification.invalid "User not found or inactive" ∧
  world o =
    set_authSessions (storage.update_sessions sessionToken deactivate) w ∧
  ∀ e' (later_users : list User.t),
    val (verifySession sessionToken e' (set_users (λ _, later_users) (world o)))
    = SessionVerification.invalid "Session is inactive".
Proof.
  intros Hne Hs Ha Ht Hu o. subst o.
  assert (Hfind : storage.find_session sessionToken
                    (storage.update_sessions sessionToken deactivate (authSessions w))
                  = Some (AuthSession.set deactivate s)).
  { rewrite find_session_update by done. by rewrite Hs. }
  unfold unavailable in Hu. munfold. simpl.
  rewrite bool_decide_eq_false_2 by done. simpl. rewrite Hs. simpl.
  rewrite Ha. simpl. rewrite bool_decide_eq_false_2 by lia. simpl.
  destruct (storage.find_user_by_id (AuthSession.userId s) (users w))
    as [user|]; simpl.
  - destruct (User.isActive user); [done|]. simpl.
    split_and!; try done. intros e' later_users. by rewrite Hfind.
  - split_and!; try done. intros e' later_users. by rewrite Hfind.
Qed.
End SessionLifecycle.

(** ** The periodic sweep *)

Section Sweep.
Context `{Bcrypt}.
Implicit Types (e : Env) (w : World).

Lemma cleanupExpiredData_run e w :
  cleanupExpiredData e w =
    mkOut tt
      (set_loginAttempts
         (filter (λ kv, ¬ (LoginAttempt.lastAttempt kv.2 < now e - 60 * 60 * 1000)))
         (set_verificationCodes
            (filter (λ kv, ¬ (VerificationCode.expiresAt kv.2 < now e)))
            (set_authSessions
               (List.filter
                  (λ s, negb (bool_decide (AuthSession.expiresAt s < now e))))
               w)))
      [CleanupExpiredSessions].
Proof. reflexivity. Qed.

(** The first row of a token survives a filter that keeps it. *)
Lemma find_session_filter (keep : AuthSession.t → bool) token l s :
  storage.find_session token l = Some s →
  keep s = true →
  storage.find_session token (List.filter keep l) = Some s.
Proof.
  unfold storage.find_session. intros Hf Hk.
  induction l as [|s' l IH]; [done|]. simpl in *.
  destruct (bool_decide (AuthSession.sessionToken s' = token)) eqn:Hs.
  - simplify_eq. rewrite Hk. simpl. by rewrite Hs.
  - destruct (keep s'); simpl; [rewrite Hs|]; by apply IH.
Qed.

(** Property X4.
    The sweep removes the verification codes past their expiry, the
    throttle entries whose last failure is more than an hour old and the
    sessions past their expiry, and nothing else.  So it never lifts a
    lockout that is in force, it leaves every code that could still be
    accepted to be accepted, and every session that is valid at the time
    of the sweep stays valid. *)
Theorem sweep_removes_only_what_is_stale e w :
  let w' := world (cleanupExpiredData e w) in
  (∀ codeId,
     verificationCodes w' !! codeId =
     match verificationCodes w !! codeId with
     | Some v => if bool_decide (VerificationCode.expiresAt v < now e)
                 then None else Some v
     | None => None
     end) ∧
  (∀ ip,
     loginAttempts w' !! ip =
     match loginAttempts w !! ip with
     | Some a => if bool_decide (LoginAttempt.lastAttempt a < now e - 60 * 60 * 1000)
                 then None else Some a
     | None => None
     end) ∧
  authSessions w' =
    List.filter (λ s, negb (bool_decide (AuthSession.expiresAt s < now e)))
                (authSessions w) ∧
  users w' = users w ∧
  activityLogs w' = activityLogs w ∧
  (∀ ip e', now e ≤ now e' →
     locked_out w ip (now e') = true → locked_out w' ip (now e') = true) ∧
  (∀ codeId inputCode ip e', now e ≤ now e' →
     AuthResult.success (val (verify2FACode codeId inputCode ip e' w')) =
     AuthResult.success (val (verify2FACode codeId inputCode ip e' w))) ∧
  (∀ sessionToken e', now e ≤ now e' →
     SessionVerification.valid (val (verifySession sessionToken e' w)) = true →
     val (verifySession sessionToken e' w') = val (verifySession sessionToken e' w)).
Proof.
  intros w'. subst w'. rewrite cleanupExpiredData_run. simpl.
  assert (Hcodes : ∀ codeId,
     filter (λ kv, ¬ (VerificationCode.expiresAt kv.2 < now e))
            (verificationCodes w) !! codeId =
     match verificationCodes w !! codeId with
     | Some v => if bool_decide (VerificationCode.expiresAt v < now e)
                 then None else Some v
     | None => None
     end).
  { intros codeId. destruct (verificationCodes w !! codeId) as [v|] eqn:Hv.
    - case_bool_decide.
      + apply map_lookup_filter_None. right. intros v' Hv'. simpl.
        assert (v' = v) as -> by congruence. lia.
      + by apply map_lookup_filter_Some_2.
    - apply map_lookup_filter_None. by left. }
  assert (Hatt : ∀ ip,
     filter (λ kv, ¬ (LoginAttempt.lastAttempt kv.2 < now e - 60 * 60 * 1000))
            (loginAttempts w) !! ip =
     match loginAttempts w !! ip with
     | Some a => if bool_decide (LoginAttempt.lastAttempt a < now e - 60 * 60 * 1000)
                 then None else Some a
     | None => None
     end).
  { intros ip. destruct (loginAttempts w !! ip) as [a|] eqn:Ha.
    - case_bool_decide.
      + apply map_lookup_filter_None. right. intros a' Ha'. simpl.
        assert (a' = a) as -> by congruence. lia.
      + by apply map_lookup_filter_Some_2.
    - apply map_lookup_filter_None. by left. }
  split_and!; try done.
  - (* lockouts *)
    intros ip e' Hle. unfold locked_out. simpl. rewrite Hatt.
    destruct (loginAttempts w !! ip) as [a|]; [|done].
    intros Hlock. apply andb_prop in Hlock as [Hc Ht].
    apply bool_decide_eq_true in Ht.
    rewrite bool_decide_eq_false_2; [by rewrite Hc, bool_decide_eq_true_2|].
    unfold lockoutDuration in Ht. lia.
  - (* codes *)
    intros codeId inputCode ip e' Hle.
    destruct (verify2FACode_inv e' codeId inputCode ip w) as
      [Hn ->|v Hv Ht ->|v Hv Ht Hc ->|v Hv Ht Hc Hu ->
       |v user Hv Ht Hc Hf Ha ->]; simpl.
    + rewrite verify2FACode_missing; [done|]. simpl. by rewrite Hcodes, Hn.
    + destruct (decide (VerificationCode.expiresAt v < now e)).
      * rewrite verify2FACode_missing; [done|]. simpl. rewrite Hcodes, Hv.
        by rewrite bool_decide_eq_true_2.
      * rewrite (verify2FACode_expired _ _ _ _ _ v); [done| |done]. simpl.
        rewrite Hcodes, Hv. by rewrite bool_decide_eq_false_2.
    + rewrite (verify2FACode_rejected _ _ _ _ _ v); [done| |done..]. simpl.
      rewrite Hcodes, Hv. rewrite bool_decide_eq_false_2; [done|lia].
    + rewrite (verify2FACode_unavailable _ _ _ _ _ v); [done| |done..]. simpl.
      rewrite Hcodes, Hv. rewrite bool_decide_eq_false_2; [done|lia].
    + rewrite (verify2FACode_accepted _ _ _ _ _ v user); [done| |done..]. simpl.
      rewrite Hcodes, Hv. rewrite bool_decide_eq_false_2; [done|lia].
  - (* sessions *)
    intros sessionToken e' Hle Hvalid.
    apply verifySession_valid_inv in Hvalid
      as (s & user & Hne & Hs & Ha & Ht & Hu & Hua).
    rewrite !(verifySession_accepts _ _ _ s user); try done.
    simpl. apply find_session_filter; [done|].
    rewrite bool_decide_eq_false_2; [done|lia].
Qed.
End Sweep.

(** ** Guessing the second factor *)

Section Guessing.
Context `{Bcrypt}.
Implicit Types (e : Env) (w : World) (v : VerificationCode.t).

Lemma wrong_guess_refused e codeId inputCode ip w v :
  verificationCodes w !! codeId = Some v →
  VerificationCode.used v = false →
  now e ≤ VerificationCode.expiresAt v →
  inputCode ≠ VerificationCode.code v ∨ ip ≠ VerificationCode.ip v →
  ∃ x, verify2FACode codeId inputCode ip e w = mkOut x w [] ∧
       guess_refused (RAuth x).
Proof.
  intros Hv Hu Ht Hwrong.
  rewrite (verify2FACode_rejected e codeId inputCode ip w v); [|done..|].
  - eexists. split; [done|]. unfold guess_refused, rejection_message.
    rewrite Hu. destruct (bool_decide (VerificationCode.ip v = ip)); simpl; eauto.
  - unfold code_checks_pass. rewrite Hu.
    destruct Hwrong as [Hc|Hi].
    + rewrite (bool_decide_eq_false_2 (VerificationCode.code v = inputCode))
        by congruence.
      by rewrite !andb_false_r.
    + rewrite (bool_decide_eq_false_2 (VerificationCode.ip v = ip)) by congruence.
      by rewrite !andb_false_r.
Qed.

(** Property X5.
    Wrong guesses are free.  However many [verify2FACode] calls present a
    wrong code or come from another address before the expiry, each is
    refused and the world stays as it was: nothing is counted against
    anyone, the entry is still unused, and the right code from the right
    address is accepted afterwards. *)
Theorem wrong_guesses_cost_nothing codeId v w user (l : list (Env * Request)) :
  verificationCodes w !! codeId = Some v →
  VerificationCode.used v = false →
  storage.find_user_by_email (VerificationCode.email v) (users w) = Some user →
  User.isActive user = true →
  Forall (wrong_guess codeId v) l →
  (run l w).2 = w ∧
  Forall guess_refused (run l w).1 ∧
  ∀ e, now e ≤ VerificationCode.expiresAt v →
       AuthResult.success
         (val (verify2FACode codeId (VerificationCode.code v)
                 (VerificationCode.ip v) e (run l w).2)) = true.
Proof.
  intros Hv Hu Hf Ha Hl.
  assert (Hrun : (run l w).2 = w ∧ Forall guess_refused (run l w).1).
  { induction l as [|[e r] l IH]; [by split|].
    apply Forall_cons in Hl as [(inputCode & ip & Hr & Ht & Hwrong) Hl].
    simpl in Hr, Ht. subst r.
    destruct (wrong_guess_refused e codeId inputCode ip w v) as (x & Hx & Hg);
      [done..|].
    cbn [run fst snd]. rewrite serve_world, serve_verify, Hx. simpl.
    destruct (IH Hl) as [IHw IHr]. split; [done|]. by constructor. }
  destruct Hrun as [Hw Hr]. rewrite Hw. split_and!; try done.
  intros e Ht.
  rewrite (verify2FACode_accepted e _ _ _ _ v user); try done.
  unfold code_checks_pass. rewrite Hu.
  rewrite bool_decide_eq_false_2 by lia. by rewrite !bool_decide_eq_true_2.
Qed.
End Guessing.

(** ** Who clears the failure counter *)

Section Counter.
Context `{Bcrypt}.
Implicit Types (e : Env) (w : World).

(** Property X6.
    A completed login deletes the throttle entry of its address, whatever
    it held: an address that was locked out is let in again at once.  The
    entries of the other addresses are not touched. *)
Theorem completed_login_clears_the_counter e codeId inputCode ip w :
  AuthResult.success (val (verify2FACode codeId inputCode ip e w)) = true →
  let o := verify2FACode codeId inputCode ip e w in
  loginAttempts (world o) = delete ip (loginAttempts w) ∧
  (∀ t, locked_out (world o) ip t = false) ∧
  ∀ e' email password userAgent,
    ¬ rate_limited (val (verifyCredentials email password ip userAgent e' (world o))).
Proof.
  intros Hs o. subst o. revert Hs.
  destruct (verify2FACode_inv e codeId inputCode ip w) as
    [Hn ->|v Hv Ht ->|v Hv Ht Hc ->|v Hv Ht Hc Hu ->
     |v user Hv Ht Hc Hf Ha ->]; simpl; try discriminate.
  intros _. split_and!; try done.
  - intros t. unfold locked_out. simpl. by rewrite lookup_delete_eq.
  - intros e' email password userAgent.
    apply verifyCredentials_fresh_not_limited. simpl. apply lookup_delete_eq.
Qed.


(** Property X8.
    The throttle is kept per address: no call of either login step from
    one address changes what is counted against another one. *)
Theorem throttle_is_per_address e ip other w :
  other ≠ ip →
  (∀ email password userAgent,
     loginAttempts (world (verifyCredentials email password ip userAgent e w))
       !! other = loginAttempts w !! other) ∧
  (∀ codeId inputCode,
     loginAttempts (world (verify2FACode codeId inputCode ip e w)) !! other
     = loginAttempts w !! other).
Proof.
  intros Hne. split.
  - intros email password userAgent. by apply verifyCredentials_other_address.
  - intros codeId inputCode.
    destruct (verify2FACode_inv e codeId inputCode ip w) as
      [Hn ->|v Hv Ht ->|v Hv Ht Hc ->|v Hv Ht Hc Hu ->
       |v user Hv Ht Hc Hf Ha ->]; simpl; try done.
    by rewrite lookup_delete_ne.
Qed.
End Counter.

(** ** What the first step returns and records *)

Section FirstStep.
Context `{Bcrypt}.
Implicit Types (e : Env) (w : World) (user : User.t).

(** What a first step that succeeds has found and stored. *)
Lemma verifyCredentials_success e email password ip userAgent w :
  let o := verifyCredentials email password ip userAgent e w in
  AuthResult.success (val o) = true →
  ∃ user,
    storage.find_user_by_email (toLowerCase email) (users w) = Some user ∧
    User.isActive user = true ∧
    bcrypt_compare password (User.passwordHash user) = true ∧
    val o = AuthResult.mk true "Verification code sent to your email" None
              (Some (randomUUID e)) (Some 300) None None ∧
    verificationCodes (world o) =
      <[randomUUID e :=
          VerificationCode.mk (random_code e) (User.email user) ip userAgent
                              (now e + codeExpiry) false]>
        (verificationCodes w).
Proof.
  intros o. subst o. munfold. simpl.
  branches; try discriminate; intros _; eexists;
    (split_and!; [reflexivity | by destruct (User.isActive _)
                 | by destruct (bcrypt_compare _ _) | reflexivity | reflexivity]).
Qed.

(** Property X9.
    The one-time code never travels in the value of the first step: the
    result carries no code, no session token and no user.  A success
    carries the identifier drawn for the call and the validity in
    seconds (300); the entry stored under the identifier holds the code,
    the email of the stored user row, the address and the user agent of
    the call, and expires [codeExpiry] later.  A failure carries no
    identifier. *)
Theorem first_step_never_returns_the_code e email password ip userAgent w :
  let o := verifyCredentials email password ip userAgent e w in
  AuthResult.code (val o) = None ∧
  AuthResult.sessionToken (val o) = None ∧
  AuthResult.user (val o) = None ∧
  (AuthResult.success (val o) = true →
     AuthResult.codeId (val o) = Some (randomUUID e) ∧
     AuthResult.expiresIn (val o) = Some 300 ∧
     ∃ user,
       storage.find_user_by_email (toLowerCase email) (users w) = Some user ∧
       verificationCodes (world o) !! randomUUID e =
         Some (VerificationCode.mk (random_code e) (User.email user) ip userAgent
                                   (now e + 5 * 60 * 1000) false)) ∧
  (AuthResult.success (val o) = false →
     AuthResult.codeId (val o) = None ∧ AuthResult.expiresIn (val o) = None).
Proof.
  intros o. split_and!.
  - subst o. munfold. simpl. by branches.
  - subst o. munfold. simpl. by branches.
  - subst o. munfold. simpl. by branches.
  - intros Hs.
    destruct (verifyCredentials_success e email password ip userAgent w Hs)
      as (user & Hf & _ & _ & Hval & Hcodes).
    fold o in Hval, Hcodes. rewrite Hval, Hcodes. simpl.
    split_and!; try done. exists user. split; [done|].
    by rewrite lookup_insert_eq.
  - subst o. munfold. simpl. by branches.
Qed.

(** Property X10.
    What the first step does not audit: a call rejected by the throttle,
    a call for an unknown or inactive account, and a call whose code could
    not be dispatched write no activity log entry. *)
Theorem unaudited_first_step_failures e email password ip userAgent w :
  let o := verifyCredentials email password ip userAgent e w in
  locked_out w ip (now e) = true ∨
  unavailable (storage.find_user_by_email (toLowerCase email) (users w)) = true ∨
  val o = AuthResult.failure "Failed to send verification code" →
  AuthResult.success (val o) = false ∧
  activityLogs (world o) = activityLogs w ∧
  ∀ entry, CreateActivityLog entry ∉ calls o.
Proof.
  intros o Hcase. subst o. revert Hcase.
  unfold locked_out, unavailable. munfold. simpl.
  branches; simplify_eq; simpl;
    intros [Hc|[Hc|Hc]]; simplify_eq; try discriminate; try congruence;
    try (by destruct (User.isActive _));
    (split_and!; [done..|]); intros entry Hin;
    repeat (apply elem_of_cons in Hin as [Hin|Hin]; [discriminate|]);
    by apply elem_of_nil in Hin.
Qed.
End FirstStep.

(** ** A second step that fails *)

Section SecondStep.
Implicit Types (e : Env) (w : World).

(** Property X11.
    A second step that fails is neither counted nor audited: users,
    sessions, the activity log and the throttle are as before, and the
    codes other than the one presented are not touched. *)
Theorem failed_second_step_leaves_no_trace e codeId inputCode ip w :
  let o := verify2FACode codeId inputCode ip e w in
  AuthResult.success (val o) = false →
  users (world o) = users w ∧
  authSessions (world o) = authSessions w ∧
  activityLogs (world o) = activityLogs w ∧
  loginAttempts (world o) = loginAttempts w ∧
  (∀ other, other ≠ codeId →
     verificationCodes (world o) !! other = verificationCodes w !! other) ∧
  (∀ c, c ∈ calls o → ∃ email, c = GetUserByEmail email).
Proof.
  intros o. subst o.
  destruct (verify2FACode_inv e codeId inputCode ip w) as
    [Hn ->|v Hv Ht ->|v Hv Ht Hc ->|v Hv Ht Hc Hu ->
     |v user Hv Ht Hc Hf Ha ->]; simpl; try discriminate; intros _;
    (split_and!; try done).
  all: try (intros other Hne; by rewrite ?lookup_delete_ne, ?lookup_insert_ne).
  all: intros c Hin; try (by apply elem_of_nil in Hin).
  apply list_elem_of_singleton in Hin. eauto.
Qed.
End SecondStep.

(** ** Password and allow-list administration *)

Section Admin.
Context `{Bcrypt}.
Implicit Types (e : Env) (w : World) (user : User.t).


(** Property X12.
    A password change that fails changes nothing, and it fails without
    any comparison when no user has the identifier. *)
Theorem failed_changePassword_changes_nothing
    e userId currentPassword newPassword w :
  let o := changePassword userId currentPassword newPassword e w in
  (storage.find_user_by_id userId (users w) = None →
     o = mkOut (false, "User not found") w [GetUser userId]) ∧
  ((val o).1 = false →
     world o = w ∧
     ∀ c, c ∈ calls o →
          c = GetUser userId ∨ ∃ h, c = BcryptCompare currentPassword h).
Proof.
  intros o. subst o. munfold. simpl. split.
  - by intros ->.
  - branches; try discriminate; intros _; (split; [done|]); intros c Hin;
      repeat (apply elem_of_cons in Hin as [->|Hin]; [eauto|]);
      by apply elem_of_nil in Hin.
Qed.
End Admin.

(** ** The allow-list *)

Section AllowList.
Context `{Bcrypt}.
Implicit Types (e : Env) (w : World) (user : User.t).



End AllowList.

(** ** From the password to a verified session *)

Section RoundTrip.
Context `{Bcrypt}.
Implicit Types (e : Env) (w : World) (user : User.t).

Lemma find_session_appended token l s :
  storage.find_session token l = None →
  AuthSession.sessionToken s = token →
  storage.find_session token (l ++ [s]) = Some s.
Proof.
  unfold storage.find_session. intros Hl Hs.
  induction l as [|s' l IH]; simpl in *.
  - by rewrite bool_decide_eq_true_2.
  - destruct (bool_decide (AuthSession.sessionToken s' = token)); [done|].
    by apply IH.
Qed.

(** Property X14.
    A login round trip.  When the first step succeeds for the stored
    user, presenting the identifier and the code it drew, from the same
    address and within [codeExpiry], completes the login: the second step
    returns the token drawn for it with that user, and removes the code.
    If the token is not empty and not yet that of a stored session, and
    the user's identifier designates the user's own row, [verifySession]
    then accepts the token until [sessionExpiry] after the second step,
    returning the user and the session created for the address and the
    user agent of the first step, and changes nothing. *)
Theorem login_round_trip e1 e2 e3 email password ip userAgent w user :
  let o1 := verifyCredentials email password ip userAgent e1 w in
  let o2 := verify2FACode (randomUUID e1) (random_code e1) ip e2 (world o1) in
  let o3 := verifySession (randomBytes_hex e2) e3 (world o2) in
  AuthResult.success (val o1) = true →
  storage.find_user_by_email (toLowerCase email) (users w) = Some user →
  now e2 ≤ now e1 + codeExpiry →
  randomBytes_hex e2 ≠ "" →
  storage.find_session (randomBytes_hex e2) (authSessions w) = None →
  storage.find_user_by_id (User.id user) (users w) = Some user →
  now e3 ≤ now e2 + sessionExpiry →
  val o2 = AuthResult.mk true "Login successful" None None None
             (Some (randomBytes_hex e2)) (Some user) ∧
  verificationCodes (world o2) !! randomUUID e1 = None ∧
  val o3 = SessionVerification.mk true None (Some user)
             (Some (AuthSession.mk (User.id user) (randomBytes_hex e2) ip
                      userAgent true (now e2 + sessionExpiry))) ∧
  world o3 = world o2.
Proof.
  intros o1 o2 o3 Hs Hf Ht2 Htok Hfresh Hid Ht3.
  destruct (verifyCredentials_success e1 email password ip userAgent w Hs)
    as (user' & Hf' & Ha & _ & _ & Hcodes).
  assert (user' = user) as -> by congruence.
  destruct (verifyCredentials_frame e1 email password ip userAgent w)
    as (Husers & Hsess & _ & _).
  fold o1 in Hcodes, Husers, Hsess.
  set (v := VerificationCode.mk (random_code e1) (User.email user) ip userAgent
                                (now e1 + codeExpiry) false) in *.
  assert (Ho2 : o2 = _) by
    (apply (verify2FACode_accepted e2 (randomUUID e1) (random_code e1) ip
              (world o1) v user);
     [ by rewrite Hcodes, lookup_insert_eq
     | unfold code_checks_pass; simpl;
       rewrite bool_decide_eq_false_2 by lia;
       by rewrite !bool_decide_eq_true_2
     | rewrite Husers; by apply find_user_by_email_again in Hf
     | done ]).
  assert (Ho3 : o3 = mkOut (SessionVerification.mk true None (Some user)
                              (Some (issued_session e2 ip v user)))
                       (world o2)
                       [GetAuthSession (randomBytes_hex e2);
                        GetUser (User.id user)]).
  { subst o3. apply verifySession_accepts; try done.
    - rewrite Ho2. simpl. rewrite Hsess. by apply find_session_appended.
    - rewrite Ho2. simpl. by rewrite Husers. }
  rewrite Ho3. rewrite Ho2 at 1 2. simpl.
  split_and!; try done. by rewrite lookup_delete_eq.
Qed.
End RoundTrip.

(** ** The login route *)

Section LoginRoute.
Context `{Bcrypt}.
Implicit Types (e : Env) (w : World) (req : HttpRequest).

Lemma or_else_Some a s : s ≠ "" → or_else a (Some s) ≠ None ∧ or_else a (Some s) ≠ Some "".
Proof.
  intros Hs. destruct a as [s'|]; simpl; [|split; congruence].
  case_bool_decide; split; congruence.
Qed.

Lemma or_else_truthy s b : s ≠ "" → or_else (Some s) b = Some s.
Proof. intros Hs. simpl. by rewrite bool_decide_eq_false_2. Qed.

Lemma before_comma_app first rest :
  before_comma first = first →
  before_comma (first +:+ "," +:+ rest) = first.
Proof.
  induction first as [|c first IH]; [done|]. simpl.
  destruct (Ascii.eqb c ",") eqn:Hc; [done|].
  intros [= Hfirst]. by rewrite IH.
Qed.

Lemma getClientIP_forwarded req header :
  x_forwarded_for req = Some header →
  before_comma header ≠ "" →
  getClientIP req = before_comma header.
Proof.
  unfold getClientIP. intros -> Hne.
  change (before_comma <$> Some header) with (Some (before_comma header)).
  by rewrite !or_else_truthy.
Qed.

(** Property X15.
    The client address is the first entry of the [X-Forwarded-For] header
    whenever the request carries one that is not empty, whatever the
    socket says; without the header the socket address is used, and the
    result is never the empty string. *)
Theorem getClientIP_trusts_the_forwarded_header req :
  getClientIP req ≠ "" ∧
  (∀ header, x_forwarded_for req = Some header →
             before_comma header ≠ "" →
             getClientIP req = before_comma header) ∧
  (∀ first rest, x_forwarded_for req = Some (first +:+ "," +:+ rest) →
                 before_comma first = first → first ≠ "" →
                 getClientIP req = first) ∧
  (∀ remote, x_forwarded_for req = None →
             connection_remoteAddress req = Some remote → remote ≠ "" →
             getClientIP req = remote).
Proof.
  split_and!.
  - unfold getClientIP.
    match goal with |- default _ (or_else ?a _) ≠ _ =>
      destruct (or_else_Some a "unknown") as [H1 H2]; [done|];
      destruct (or_else a (Some "unknown")); simpl; congruence end.
  - apply getClientIP_forwarded.
  - intros first rest Hh Hfirst Hne.
    rewrite (getClientIP_forwarded req _ Hh);
      by rewrite before_comma_app.
  - unfold getClientIP. intros remote -> -> Hne.
    change (before_comma <$> None) with (@None string).
    change (or_else None (Some remote)) with (Some remote).
    by rewrite !or_else_truthy.
Qed.

End LoginRoute.

(** * The further properties at work on concrete runs *)

Section FurtherExamples.
#[local] Existing Instance toy_bcrypt.

(** Bob's session is used after he was deactivated: it is revoked, and
    stays so once he is active again. *)
Lemma session_of_unavailable_user_is_revoked_witness :
  let o := verifySession "tok-b" (env_at 1000) world_bob_session in
  "tok-b" ≠ "" ∧
  storage.find_session "tok-b" (authSessions world_bob_session)
    = Some bob_session ∧
  AuthSession.isActive bob_session = true ∧
  now (env_at 1000) ≤ AuthSession.expiresAt bob_session ∧
  unavailable (storage.find_user_by_id (AuthSession.userId bob_session)
                 (users world_bob_session)) = true ∧
  val o = SessionVerification.invalid "User not found or inactive" ∧
  val (verifySession "tok-b" (env_at 2000)
         (set_users (λ _, [alice; bob_again]) (world o)))
  = SessionVerification.invalid "Session is inactive".
Proof.
  intros o.
  assert (H1 : "tok-b" ≠ "") by discriminate.
  assert (H2 : storage.find_session "tok-b" (authSessions world_bob_session)
               = Some bob_session) by (vm_compute; reflexivity).
  assert (H3 : AuthSession.isActive bob_session = true) by reflexivity.
  assert (H4 : now (env_at 1000) ≤ AuthSession.expiresAt bob_session)
    by (vm_compute; discriminate).
  assert (H5 : unavailable (storage.find_user_by_id
                              (AuthSession.userId bob_session)
                              (users world_bob_session)) = true)
    by (vm_compute; reflexivity).
  split; [exact H1|]. split; [exact H2|]. split; [exact H3|].
  split; [exact H4|]. split; [exact H5|].
  destruct (session_of_unavailable_user_is_revoked
              (env_at 1000) "tok-b" world_bob_session bob_session
              H1 H2 H3 H4 H5) as (Hval & _ & Hlater).
  split; [exact Hval|]. exact (Hlater (env_at 2000) [alice; bob_again]).
Defined.

(** Two wrong guesses for alice's code, one with a wrong code and one from
    another address: nothing changes, and the right code is accepted at
    time 4000. *)
Lemma wrong_guesses_cost_nothing_witness :
  let l := [(env_at 2000, Verify2FACode "uuid-1" "000000" "1.2.3.4");
            (env_at 3000, Verify2FACode "uuid-1" "123456" "6.6.6.6")] in
  verificationCodes world_pending !! "uuid-1" = Some pending_code ∧
  VerificationCode.used pending_code = false ∧
  storage.find_user_by_email (VerificationCode.email pending_code)
    (users world_pending) = Some alice ∧
  User.isActive alice = true ∧
  Forall (wrong_guess "uuid-1" pending_code) l ∧
  (run l world_pending).2 = world_pending ∧
  AuthResult.success
    (val (verify2FACode "uuid-1" "123456" "1.2.3.4" (env_at 4000)
            (run l world_pending).2)) = true.
Proof.
  intros l.
  assert (H1 : verificationCodes world_pending !! "uuid-1" = Some pending_code)
    by (vm_compute; reflexivity).
  assert (H2 : VerificationCode.used pending_code = false) by reflexivity.
  assert (H3 : storage.find_user_by_email (VerificationCode.email pending_code)
                 (users world_pending) = Some alice)
    by (vm_compute; reflexivity).
  assert (H4 : User.isActive alice = true) by reflexivity.
  assert (H5 : Forall (wrong_guess "uuid-1" pending_code) l).
  { repeat constructor.
    - exists "000000", "1.2.3.4". split; [reflexivity|].
      split; [vm_compute; discriminate | left; discriminate].
    - exists "123456", "6.6.6.6". split; [reflexivity|].
      split; [vm_compute; discriminate | right; discriminate]. }
  split; [exact H1|]. split; [exact H2|]. split; [exact H3|].
  split; [exact H4|]. split; [exact H5|].
  destruct (wrong_guesses_cost_nothing "uuid-1" pending_code world_pending
              alice l H1 H2 H3 H4 H5) as (Hw & _ & Hlater).
  split; [exact Hw|].
  apply (Hlater (env_at 4000)). vm_compute. discriminate.
Defined.

(** The locked address completes a login with the code that was
    outstanding: its counter is deleted. *)
Lemma completed_login_clears_the_counter_witness :
  let o := verify2FACode "uuid-1" "123456" "1.2.3.4" (env_at 2000)
             world_locked_pending in
  locked_out world_locked_pending "1.2.3.4" 2000 = true ∧
  AuthResult.success (val o) = true ∧
  loginAttempts (world o) = delete "1.2.3.4" (loginAttempts world_locked_pending) ∧
  locked_out (world o) "1.2.3.4" 2000 = false.
Proof.
  intros o.
  assert (H0 : locked_out world_locked_pending "1.2.3.4" 2000 = true)
    by (vm_compute; reflexivity).
  assert (Hs : AuthResult.success (val o) = true) by (vm_compute; reflexivity).
  split; [exact H0|]. split; [exact Hs|].
  destruct (completed_login_clears_the_counter
              (env_at 2000) "uuid-1" "123456" "1.2.3.4" world_locked_pending Hs)
    as (Hdel & Hfree & _).
  split; [exact Hdel | exact (Hfree 2000)].
Defined.


(** A wrong password from another address while 1.2.3.4 is locked out:
    what is counted against 1.2.3.4 does not change. *)
Lemma throttle_is_per_address_witness :
  let o := verifyCredentials "a@b.com" "letmein" "5.6.7.8" "UA" (env_at 2000)
             world_locked in
  "1.2.3.4" ≠ "5.6.7.8" ∧
  val o = AuthResult.failure "Invalid credentials" ∧
  loginAttempts (world o) !! "1.2.3.4" = loginAttempts world_locked !! "1.2.3.4".
Proof.
  intros o.
  assert (Hne : "1.2.3.4" ≠ "5.6.7.8") by discriminate.
  split; [exact Hne|]. split; [vm_compute; reflexivity|].
  exact (proj1 (throttle_is_per_address (env_at 2000) "5.6.7.8" "1.2.3.4"
                  world_locked Hne) "a@b.com" "letmein" "UA").
Defined.

(** A first step for an email that no user has: no audit entry. *)
Lemma unaudited_first_step_failures_witness :
  let o := verifyCredentials "nobody@b.com" "secret123" "1.2.3.4" "UA"
             (env_at 1000) world0 in
  unavailable (storage.find_user_by_email (toLowerCase "nobody@b.com")
                 (users world0)) = true ∧
  AuthResult.success (val o) = false ∧
  activityLogs (world o) = activityLogs world0.
Proof.
  intros o.
  assert (Hu : unavailable (storage.find_user_by_email
                              (toLowerCase "nobody@b.com") (users world0)) = true)
    by (vm_compute; reflexivity).
  split; [exact Hu|].
  destruct (unaudited_first_step_failures
              (env_at 1000) "nobody@b.com" "secret123" "1.2.3.4" "UA" world0
              (or_intror (or_introl Hu))) as (Hs & Hlogs & _).
  split; [exact Hs | exact Hlogs].
Defined.

(** Bob's code, presented after he was deactivated: the failure leaves
    users, sessions, audit log and throttle alone. *)
Lemma failed_second_step_leaves_no_trace_witness :
  let o := verify2FACode "uuid-2" "654321" "10.0.0.1" (env_at 2000) world_bob in
  AuthResult.success (val o) = false ∧
  users (world o) = users world_bob ∧
  authSessions (world o) = authSessions world_bob ∧
  activityLogs (world o) = activityLogs world_bob ∧
  loginAttempts (world o) = loginAttempts world_bob.
Proof.
  intros o.
  assert (Hs : AuthResult.success (val o) = false) by (vm_compute; reflexivity).
  split; [exact Hs|].
  destruct (failed_second_step_leaves_no_trace
              (env_at 2000) "uuid-2" "654321" "10.0.0.1" world_bob Hs)
    as (H1 & H2 & H3 & H4 & _).
  split; [exact H1|]. split; [exact H2|]. split; [exact H3|]. exact H4.
Defined.

(** Alice logs in, in development mode: password at time 1000, code at
    time 2000, and the session is verified at time 3000. *)
Lemma login_round_trip_witness :
  let o1 := verifyCredentials "A@B.com" "secret123" "1.2.3.4" "UA"
              (dev_at 1000) world0 in
  let o2 := verify2FACode "uuid-1" "123456" "1.2.3.4" (env_at 2000) (world o1) in
  let o3 := verifySession "tok-1" (env_at 3000) (world o2) in
  AuthResult.success (val o1) = true ∧
  storage.find_user_by_email (toLowerCase "A@B.com") (users world0) = Some alice ∧
  now (env_at 2000) ≤ now (dev_at 1000) + codeExpiry ∧
  randomBytes_hex (env_at 2000) ≠ "" ∧
  storage.find_session (randomBytes_hex (env_at 2000)) (authSessions world0)
    = None ∧
  storage.find_user_by_id (User.id alice) (users world0) = Some alice ∧
  now (env_at 3000) ≤ now (env_at 2000) + sessionExpiry ∧
  val o2 = AuthResult.mk true "Login successful" None None None
             (Some "tok-1") (Some alice) ∧
  val o3 = SessionVerification.mk true None (Some alice)
             (Some (AuthSession.mk 1 "tok-1" "1.2.3.4" "UA" true
                      (2000 + sessionExpiry))).
Proof.
  intros o1 o2 o3.
  assert (H1 : AuthResult.success (val o1) = true) by (vm_compute; reflexivity).
  assert (H2 : storage.find_user_by_email (toLowerCase "A@B.com") (users world0)
               = Some alice) by (vm_compute; reflexivity).
  assert (H3 : now (env_at 2000) ≤ now (dev_at 1000) + codeExpiry)
    by (vm_compute; discriminate).
  assert (H4 : randomBytes_hex (env_at 2000) ≠ "") by discriminate.
  assert (H5 : storage.find_session (randomBytes_hex (env_at 2000))
                 (authSessions world0) = None) by reflexivity.
  assert (H6 : storage.find_user_by_id (User.id alice) (users world0)
               = Some alice) by (vm_compute; reflexivity).
  assert (H7 : now (env_at 3000) ≤ now (env_at 2000) + sessionExpiry)
    by (vm_compute; discriminate).
  split; [exact H1|]. split; [exact H2|]. split; [exact H3|].
  split; [exact H4|]. split; [exact H5|]. split; [exact H6|].
  split; [exact H7|].
  destruct (login_round_trip (dev_at 1000) (env_at 2000) (env_at 3000)
              "A@B.com" "secret123" "1.2.3.4" "UA" world0 alice
              H1 H2 H3 H4 H5 H6 H7) as (Hv2 & _ & Hv3 & _).
  split; [exact Hv2 | exact Hv3].
Defined.

End FurtherExamples.
